(** * BatchQuery chatbot: image intake, query orchestration, analysis endpoint

    A shallow embedding of the three pieces of logic of the repository:

    - [Endpoint]: [app/api/analyze-images/route.ts], the [POST] handler and
      its local fallback generator [generateFallbackResponse];
    - [Upload]: [components/image-upload.tsx], the [ImageUpload] component
      ([validateFile], [handleFiles], [removeImage], the clear button);
    - [Page]: [app/page.tsx], the chat page ([validateQuery],
      [validateImages], [handleSendQuery]).

    React state is passed explicitly: a handler takes the state its closure
    captured and returns the state after its setters have run, together with
    the effects it performed (network requests, toasts, calls of the parent's
    callback).  What the environment decides (file reads, random identifiers,
    the clock, the network, the model provider) is an argument of the
    handler.  Handlers are run one at a time, to completion. *)

From Stdlib Require Import List Bool Arith NArith ZArith Lia.
From Stdlib Require Ascii String DecimalString.
Import ListNotations String.StringSyntax.

(** ** JavaScript strings *)

(** A JavaScript string is a sequence of UTF-16 code units; [length] counts
    code units. *)
Definition code_unit := N.
Definition jsstring := list code_unit.

(** An ASCII literal of the source. *)
Definition lit (s : String.string) : jsstring :=
  map Ascii.N_of_ascii (String.list_ascii_of_string s).

Delimit Scope string_scope with string.
Arguments lit s%_string.

(** The line feed of the escapes [\n] of the source. *)
Definition LF : code_unit := 10%N.

Definition code_unit_eqb : code_unit -> code_unit -> bool := N.eqb.

Fixpoint jsstring_eqb (s t : jsstring) : bool :=
  match s, t with
  | [], [] => true
  | c :: s', d :: t' => code_unit_eqb c d && jsstring_eqb s' t'
  | _, _ => false
  end.

(** [String.prototype.startsWith]. *)
Fixpoint startsWith (s searchString : jsstring) : bool :=
  match searchString, s with
  | [], _ => true
  | c :: search', d :: s' => code_unit_eqb c d && startsWith s' search'
  | _ :: _, [] => false
  end.

(** [String.prototype.includes]: some suffix of [s] starts with the
    search string. *)
Fixpoint includes (s searchString : jsstring) : bool :=
  startsWith s searchString ||
  match s with
  | [] => false
  | _ :: s' => includes s' searchString
  end.

(** [String.prototype.toLowerCase], on the code units whose lower case has
    an ASCII letter in it: the letters A-Z, U+212A KELVIN SIGN (to k) and
    U+0130 (to i followed by U+0307).  The other code units are kept as they
    are; their lower case is not ASCII, so a search for an ASCII keyword in
    the result cannot tell the difference. *)
Definition lower_code_unit (c : code_unit) : jsstring :=
  if ((65 <=? c) && (c <=? 90))%N then [(c + 32)%N]
  else if (c =? 8490)%N then [107%N]
  else if (c =? 304)%N then [105%N; 775%N]
  else [c].

Definition toLowerCase (s : jsstring) : jsstring :=
  flat_map lower_code_unit s.

(** The white space and line terminators that [String.prototype.trim]
    strips: TAB, VT, FF, SP, NBSP, ZWNBSP, the category Zs, and LF, CR, LS,
    PS.  All of them are single code units. *)
Definition is_white_space (c : code_unit) : bool :=
  ((c =? 9) || (c =? 10) || (c =? 11) || (c =? 12) || (c =? 13) || (c =? 32)
   || (c =? 160) || (c =? 5760) || ((8192 <=? c) && (c <=? 8202))
   || (c =? 8232) || (c =? 8233) || (c =? 8239) || (c =? 8287)
   || (c =? 12288) || (c =? 65279))%N.

Fixpoint trimStart (s : jsstring) : jsstring :=
  match s with
  | [] => []
  | c :: s' => if is_white_space c then trimStart s' else s
  end.

Definition trimEnd (s : jsstring) : jsstring := rev (trimStart (rev s)).

Definition trim (s : jsstring) : jsstring := trimEnd (trimStart s).

(** [Array.prototype.join] on an array of strings. *)
Fixpoint join (separator : jsstring) (parts : list jsstring) : jsstring :=
  match parts with
  | [] => []
  | [p] => p
  | p :: rest => p ++ separator ++ join separator rest
  end.

(** An integer-valued number in a template literal. *)
Definition number_to_string (n : Z) : jsstring :=
  lit (DecimalString.NilEmpty.string_of_int (Z.to_int n)).

Definition nat_to_string (n : nat) : jsstring := number_to_string (Z.of_nat n).

(** The value of [a || b] on strings that may be [undefined]: the empty
    string and [undefined] are falsy. *)
Definition or_default (a : option jsstring) (b : jsstring) : jsstring :=
  match a with
  | Some (c :: s) => c :: s
  | _ => b
  end.

(** What a [catch] clause may receive: an [Error] with its message, or
    some other value. *)
Inductive Thrown :=
| ThrownError (message : jsstring)
| ThrownOther.

(** How an awaited promise settles. *)
Inductive Settled (A : Type) :=
| Resolved (value : A)
| Rejected (reason : Thrown).

Arguments Resolved {A} value.
Arguments Rejected {A} reason.

(** [err instanceof Error ? err.message : fallback]. *)
Definition message_or (err : Thrown) (fallback : jsstring) : jsstring :=
  match err with
  | ThrownError message => message
  | ThrownOther => fallback
  end.

(** [n !== 1 ? "s" : ""] and [n > 1 ? "s" : ""]. *)
Definition plural_unless_one (n : Z) : jsstring :=
  if (n =? 1)%Z then [] else lit "s".

Definition plural_above_one (n : Z) : jsstring :=
  if (n >? 1)%Z then lit "s" else [].

(** ** Data shared by the page and the upload component *)

(** What the code reads of a browser [File]. *)
Record File := {
  file_name : jsstring;
  file_type : jsstring;
  file_size : N
}.

Record UploadedImage := {
  img_id : jsstring;
  img_file : File;
  img_url : jsstring;
  img_name : jsstring
}.

(** An argument of [toast]; [variant: "destructive"] is the flag. *)
Record Toast := {
  toast_title : jsstring;
  toast_description : jsstring;
  toast_destructive : bool
}.

(** [10 * 1024 * 1024], the bound both files write out. *)
Definition ten_MiB : N := (10 * 1024 * 1024)%N.

(** ** The analysis endpoint *)

Module Endpoint.

Definition counts : list Z := [3; 5; 2; 4; 1]%Z.

Definition colors : list jsstring :=
  [ lit "vibrant blue and red";
    lit "warm earth tones";
    lit "bright yellow and green";
    lit "soft pastels";
    lit "monochromatic gray" ].

Definition descriptions : list jsstring :=
  [ lit "This appears to be a well-composed image with clear subject matter.";
    lit "The image shows good lighting and interesting visual elements.";
    lit "This image contains multiple objects arranged in an appealing way.";
    lit "The composition demonstrates good use of space and color balance.";
    lit "This image has strong visual appeal with clear focal points." ].

Definition text_disclaimer : jsstring :=
  lit "I can detect some text elements, but would need a valid API connection for detailed text recognition.".

Definition demo_note : jsstring :=
  lit "*Note: This is a demo response. Connect a valid OpenAI API key for real AI analysis.*".

(** An array element in a template literal or a concatenation: a missing
    element prints as [undefined]. *)
Definition element {A} (show : A -> jsstring) (l : list A) (index : nat) : jsstring :=
  match nth_error l index with
  | Some x => show x
  | None => lit "undefined"
  end.

(** The body of the [for] loop, for one value of [i]: the string pushed on
    [responses]. *)
Definition fallback_iteration (query : jsstring) (i : nat) : jsstring :=
  let response := lit "Image " ++ nat_to_string i ++ lit ": " in
  if includes (toLowerCase query) (lit "count") || includes (toLowerCase query) (lit "how many") then
    response ++ lit "I can see " ++ element number_to_string counts (i mod length counts)
             ++ lit " items in this image."
  else if includes (toLowerCase query) (lit "color") then
    response ++ lit "The dominant colors are " ++ element (fun s => s) colors (i mod length colors)
             ++ lit "."
  else if includes (toLowerCase query) (lit "text") || includes (toLowerCase query) (lit "read") then
    response ++ text_disclaimer
  else
    response ++ element (fun s => s) descriptions (i mod length descriptions).

(** [for (let i = 1; i <= imageCount; i++) { ...; responses.push(response) }],
    with [fuel] bounding the number of iterations still allowed. *)
Fixpoint fallback_loop (query : jsstring) (imageCount : nat)
         (fuel i : nat) (responses : list jsstring) : list jsstring :=
  match fuel with
  | O => responses
  | S fuel' =>
      if i <=? imageCount
      then fallback_loop query imageCount fuel' (S i)
                         (responses ++ [fallback_iteration query i])
      else responses
  end.

(** The array [responses] when the loop is left: [imageCount] iterations
    are enough to leave it (lemma [fallback_loop_fuel]). *)
Definition fallback_responses (query : jsstring) (imageCount : nat) : list jsstring :=
  fallback_loop query imageCount imageCount 1 [].

Definition generateFallbackResponse (query : jsstring) (imageCount : nat) : jsstring :=
  join [LF; LF] (fallback_responses query imageCount) ++ [LF; LF] ++ demo_note.

(** An element of [images] in the request body. *)
Record ImageRef := {
  ref_url : jsstring;
  ref_name : jsstring
}.

(** How [await request.json()] ends, for the bodies the page can send and
    their truncations: it throws, or gives an object whose [query] is a
    string or missing and whose [images] is an array or missing. *)
Inductive RequestBody :=
| BodyThrows (error : Thrown)
| BodyObject (query : option jsstring) (images : option (list ImageRef)).

(** The argument of the one call of [generateText]. *)
Record GenerateTextCall := {
  call_model : jsstring;
  call_text : jsstring;
  call_images : list jsstring;
  call_maxTokens : Z
}.

Inductive ResponseJson :=
| ResponseText (response : jsstring)
| ResponseError (error : jsstring).

(** [NextResponse.json(body, { status })]; the status is 200 when none is
    given. *)
Record HttpResponse := {
  status : Z;
  body : ResponseJson
}.

Definition indent : jsstring := lit "                ".

Definition quote : jsstring := [34%N].

(** The template literal of the text part. *)
Definition prompt_text (query : jsstring) (images : list ImageRef) : jsstring :=
  join [LF]
    [ lit "Please analyze these " ++ nat_to_string (length images)
        ++ lit " images and answer this question: " ++ quote ++ query ++ quote ++ lit ". ";
      indent;
      indent ++ lit "For each image, provide a detailed response. Format your response as:";
      indent;
      indent ++ lit "Image 1: [your analysis]";
      indent;
      indent ++ lit "Image 2: [your analysis]";
      indent;
      indent ++ lit "etc.";
      indent;
      indent ++ lit "Be specific and detailed in your analysis." ].

(** The argument [POST] builds for [generateText]. *)
Definition provider_call (query : jsstring) (images : list ImageRef) : GenerateTextCall :=
  let imageMessages := map ref_url images in
  {| call_model := lit "gpt-4o";
     call_text := prompt_text query images;
     call_images := imageMessages;
     call_maxTokens := 1000 |}.

(** [POST], given how the provider answers a call and how the body of the
    request parses.  The result is the response sent and the calls of the
    provider that were made, in order. *)
Definition POST (generateText : GenerateTextCall -> Settled jsstring)
           (request : RequestBody) : HttpResponse * list GenerateTextCall :=
  match request with
  | BodyThrows error =>
      ({| status := 500;
          body := ResponseError (lit "Error analyzing images: "
                                   ++ message_or error (lit "Unknown error")) |},
       [])
  | BodyObject (Some query) (Some images) =>
      (* [!query || !images || images.length === 0], both fields present:
         a string is falsy when empty, an array never is *)
      if (length query =? 0) || false || (length images =? 0) then
        ({| status := 400; body := ResponseError (lit "Query and images are required") |}, [])
      else
        let call := provider_call query images in
        match generateText call with
        | Resolved text =>
            ({| status := 200; body := ResponseText text |}, [call])
        | Rejected apiError =>
            let fallbackResponse := generateFallbackResponse query (length images) in
            ({| status := 200; body := ResponseText fallbackResponse |}, [call])
        end
  | BodyObject _ _ =>
      (* a missing field is [undefined], which is falsy *)
      ({| status := 400; body := ResponseError (lit "Query and images are required") |}, [])
  end.

End Endpoint.

(** ** The upload component *)

Module Upload.

Record State := {
  images : list UploadedImage;
  uploadError : option jsstring
}.

(** What a handler did besides setting state: the lists it passed to
    [onImagesChange] and its toasts, in order. *)
Record Effects := {
  imagesChanges : list (list UploadedImage);
  toasts : list Toast
}.

Definition no_effects : Effects := {| imagesChanges := []; toasts := [] |}.

(** What the browser decides during [handleFiles]: whether [FileReader]
    reads a file into a data URL, and the string that the [k]-th call of
    [Math.random().toString(36).substr(2, 9)] gives. *)
Record Env := {
  readAsDataURL : File -> option jsstring;
  random_id : nat -> jsstring
}.

(** [(file.size / 1024 / 1024).toFixed(1)].  The quotient is exact in
    double precision for every size a file can have (below 2^53), so
    [toFixed] rounds the true quotient to the closest tenth, the larger
    one at a tie. *)
Definition megabytes_toFixed1 (size : N) : jsstring :=
  let tenths := ((10 * size + 524288) / 1048576)%N in
  number_to_string (Z.of_N (tenths / 10)) ++ lit "."
    ++ number_to_string (Z.of_N (tenths mod 10)).

Definition supportedTypes : list jsstring :=
  [ lit "image/jpeg"; lit "image/jpg"; lit "image/png"; lit "image/gif"; lit "image/webp" ].

Definition validateFile (file : File) : option jsstring :=
  if negb (startsWith (file_type file) (lit "image/")) then
    Some (file_name file ++ lit " is not a valid image file")
  else
    let maxSize := ten_MiB in
    if (maxSize <? file_size file)%N then
      Some (file_name file ++ lit " is too large (" ++ megabytes_toFixed1 (file_size file)
              ++ lit "MB). Maximum size is 10MB")
    else if negb (existsb (jsstring_eqb (file_type file)) supportedTypes) then
      Some (file_name file ++ lit " format not supported. Please use JPG, PNG, GIF, or WebP")
    else None.

(** [for (const file of Array.from(files)) { ... }]: [calls] counts the
    identifiers drawn so far. *)
Fixpoint handleFiles_loop (env : Env) (files : list File) (calls : nat)
         (newImages : list UploadedImage) (errors : list jsstring)
  : list UploadedImage * list jsstring :=
  match files with
  | [] => (newImages, errors)
  | file :: rest =>
      match validateFile file with
      | Some validationError =>
          handleFiles_loop env rest calls newImages (errors ++ [validationError])
      | None =>
          let id := random_id env calls in
          match readAsDataURL env file with
          | Some base64Url =>
              handleFiles_loop env rest (S calls)
                (newImages ++ [{| img_id := id; img_file := file;
                                  img_url := base64Url; img_name := file_name file |}])
                errors
          | None =>
              handleFiles_loop env rest (S calls) newImages
                (errors ++ [lit "Failed to process " ++ file_name file])
          end
      end
  end.

Definition handleFiles (maxImages : Z) (env : Env) (files : list File) (st : State)
  : State * Effects :=
  let st0 := {| images := images st; uploadError := None |} in
  let remainingSlots := (maxImages - Z.of_nat (length (images st)))%Z in
  if (Z.of_nat (length files) >? remainingSlots)%Z then
    ({| images := images st;
        uploadError := Some (lit "Can only upload " ++ number_to_string remainingSlots
                               ++ lit " more image" ++ plural_unless_one remainingSlots) |},
     no_effects)
  else
    let (newImages, errors) := handleFiles_loop env files 0 [] [] in
    match errors with
    | first :: _ =>
        let count := Z.of_nat (length errors) in
        ({| images := images st; uploadError := Some first |},
         {| imagesChanges := [];
            toasts := [ {| toast_title := lit "Upload Error";
                           toast_description :=
                             number_to_string count ++ lit " file" ++ plural_unless_one count
                               ++ lit " could not be uploaded";
                           toast_destructive := true |} ] |})
    | [] =>
        if 0 <? length newImages then
          let updatedImages := images st ++ newImages in
          let count := Z.of_nat (length newImages) in
          ({| images := updatedImages; uploadError := None |},
           {| imagesChanges := [updatedImages];
              toasts := [ {| toast_title := lit "Upload Successful";
                             toast_description :=
                               number_to_string count ++ lit " image" ++ plural_unless_one count
                                 ++ lit " uploaded successfully";
                             toast_destructive := false |} ] |})
        else (st0, no_effects)
    end.

Definition removeImage (id : jsstring) (st : State) : State * Effects :=
  let updatedImages :=
    filter (fun img => if jsstring_eqb (img_id img) id then false else true) (images st) in
  ({| images := updatedImages; uploadError := None |},
   {| imagesChanges := [updatedImages];
      toasts := [ {| toast_title := lit "Image Removed";
                     toast_description := lit "Image has been removed from upload";
                     toast_destructive := false |} ] |}).

(** The click handler of the Clear All button. *)
Definition clearAll (st : State) : State * Effects :=
  ({| images := []; uploadError := None |},
   {| imagesChanges := [[]];
      toasts := [ {| toast_title := lit "Images Cleared";
                     toast_description := lit "All images have been removed";
                     toast_destructive := false |} ] |}).

End Upload.

(** ** The chat page *)

Module Page.

Inductive MessageType := user | bot | error_type.

Record ChatMessage := {
  msg_id : jsstring;
  msg_type : MessageType;
  msg_content : jsstring;
  msg_images : option (list UploadedImage);
  msg_timestamp : N
}.

Record State := {
  images : list UploadedImage;
  query : jsstring;
  messages : list ChatMessage;
  isProcessing : bool;
  error : option jsstring
}.

(** The body of the request to [/api/analyze-images]. *)
Record FetchRequest := {
  req_query : jsstring;
  req_images : list Endpoint.ImageRef
}.

(** What comes back from [fetch] and from reading the body:
    - a response that is [ok] and whose body has the string [aiResponse]
      under [response];
    - a response that is not [ok] and whose body has [error] (or not) under
      [error];
    - an exception, from [fetch] or from [response.json()]. *)
Inductive FetchOutcome :=
| FetchOk (aiResponse : jsstring)
| FetchNotOk (error : option jsstring)
| FetchThrows (err : Thrown).

Record Effects := {
  requests : list FetchRequest;
  toasts : list Toast
}.

Definition no_effects : Effects := {| requests := []; toasts := [] |}.

(** What the browser and the network decide during [handleSendQuery]: the
    [k]-th random identifier, the [k]-th reading of the clock and the
    outcome of the request. *)
Record Env := {
  random_id : nat -> jsstring;
  now : nat -> N;
  fetch : FetchRequest -> FetchOutcome
}.

Definition validateQuery (queryText : jsstring) : option jsstring :=
  if (length (trim queryText) =? 0)%nat then
    Some (lit "Please enter a question about your images")
  else if (length queryText <? 3)%nat then
    Some (lit "Query must be at least 3 characters long")
  else if (500 <? length queryText)%nat then
    Some (lit "Query must be less than 500 characters")
  else None.

Definition validateImages (imageList : list UploadedImage) : option jsstring :=
  if (length imageList =? 0)%nat then
    Some (lit "Please upload at least one image before asking a question")
  else if (4 <? length imageList)%nat then
    Some (lit "Maximum 4 images allowed")
  else
    let oversizedImages :=
      filter (fun img => (ten_MiB <? file_size (img_file img))%N) imageList in
    if (0 <? length oversizedImages)%nat then
      Some (lit "Image(s) too large: " ++ join (lit ", ") (map img_name oversizedImages)
              ++ lit ". Maximum size is 10MB per image.")
    else None.

Definition setError (e : option jsstring) (st : State) : State :=
  {| images := images st; query := query st; messages := messages st;
     isProcessing := isProcessing st; error := e |}.

Definition setQuery (q : jsstring) (st : State) : State :=
  {| images := images st; query := q; messages := messages st;
     isProcessing := isProcessing st; error := error st |}.

Definition setIsProcessing (b : bool) (st : State) : State :=
  {| images := images st; query := query st; messages := messages st;
     isProcessing := b; error := error st |}.

(** [setMessages((prev) => [...prev, message])]. *)
Definition appendMessage (message : ChatMessage) (st : State) : State :=
  {| images := images st; query := query st; messages := messages st ++ [message];
     isProcessing := isProcessing st; error := error st |}.

(** [setImages], which the page hands to the upload component as
    [onImagesChange]. *)
Definition setImages (l : list UploadedImage) (st : State) : State :=
  {| images := l; query := query st; messages := messages st;
     isProcessing := isProcessing st; error := error st |}.

(** The body of the request that [handleSendQuery] sends. *)
Definition analysis_request (query : jsstring) (images : list UploadedImage) : FetchRequest :=
  {| req_query := query;
     req_images :=
       map (fun img => {| Endpoint.ref_url := img_url img;
                          Endpoint.ref_name := img_name img |}) images |}.

(** The [catch] clause of [handleSendQuery] followed by its [finally]. *)
Definition send_failed (env : Env) (request : FetchRequest) (err : Thrown) (st : State)
  : State * Effects :=
  let errorMessage :=
    {| msg_id := random_id env 1;
       msg_type := error_type;
       msg_content := message_or err (lit "An unexpected error occurred. Please try again.");
       msg_images := None;
       msg_timestamp := now env 1 |} in
  (setIsProcessing false (appendMessage errorMessage st),
   {| requests := [request];
      toasts := [ {| toast_title := lit "Analysis Failed";
                     toast_description := lit "There was an error processing your request";
                     toast_destructive := true |} ] |}).

(** [handleSendQuery], run from the state its closure captured. *)
Definition handleSendQuery (env : Env) (st : State) : State * Effects :=
  let query := query st in
  let images := images st in
  let st := setError None st in
  match validateQuery query with
  | Some queryError => (setError (Some queryError) st, no_effects)
  | None =>
      match validateImages images with
      | Some imageError => (setError (Some imageError) st, no_effects)
      | None =>
          let userMessage :=
            {| msg_id := random_id env 0;
               msg_type := user;
               msg_content := query;
               msg_images := Some images;
               msg_timestamp := now env 0 |} in
          let st := setIsProcessing true (appendMessage userMessage st) in
          let request := analysis_request query images in
          match fetch env request with
          | FetchOk aiResponse =>
              let botMessage :=
                {| msg_id := random_id env 1;
                   msg_type := bot;
                   msg_content := aiResponse;
                   msg_images := None;
                   msg_timestamp := now env 1 |} in
              let count := Z.of_nat (length images) in
              (setIsProcessing false (setQuery [] (appendMessage botMessage st)),
               {| requests := [request];
                  toasts := [ {| toast_title := lit "Analysis Complete";
                                 toast_description :=
                                   lit "Successfully analyzed " ++ number_to_string count
                                     ++ lit " image" ++ plural_above_one count;
                                 toast_destructive := false |} ] |})
          | FetchNotOk errorData =>
              send_failed env request
                (ThrownError (or_default errorData (lit "Failed to analyze images"))) st
          | FetchThrows err => send_failed env request err st
          end
      end
  end.

End Page.

(** ** The page with its upload component *)

Module App.

(** The page renders [<ImageUpload onImagesChange={setImages} maxImages={4} />]. *)
Definition maxImages : Z := 4.

Record State := {
  page : Page.State;
  upload : Upload.State
}.

Definition initial : State :=
  {| page := {| Page.images := []; Page.query := []; Page.messages := [];
                Page.isProcessing := false; Page.error := None |};
     upload := {| Upload.images := []; Upload.uploadError := None |} |}.

(** The operations of image intake, each with what the browser decides
    while it runs. *)
Inductive IntakeOp :=
| Submit (env : Upload.Env) (files : list File)
| Remove (id : jsstring)
| Clear.

Definition run_upload (op : IntakeOp) (st : Upload.State) : Upload.State * Upload.Effects :=
  match op with
  | Submit env files => Upload.handleFiles maxImages env files st
  | Remove id => Upload.removeImage id st
  | Clear => Upload.clearAll st
  end.

(** An intake operation on the whole application: the handler of the
    component runs, and each call of [onImagesChange] sets the images of
    the page. *)
Definition intake (op : IntakeOp) (st : State) : State :=
  let (up, effects) := run_upload op (upload st) in
  {| page := fold_left (fun p l => Page.setImages l p) (Upload.imagesChanges effects) (page st);
     upload := up |}.

Definition intake_all (ops : list IntakeOp) (st : State) : State :=
  fold_left (fun s op => intake op s) ops st.

(** A click on Send (or Enter in the input). *)
Definition send (env : Page.Env) (st : State) : State * Page.Effects :=
  let (p, effects) := Page.handleSendQuery env (page st) in
  ({| page := p; upload := upload st |}, effects).

End App.

(** ** The other handlers of the upload component *)

Module UploadUI.

(** The component's state with the drag highlight. *)
Record State := {
  component : Upload.State;
  dragActive : bool
}.

Definition setDragActive (b : bool) (st : State) : State :=
  {| component := component st; dragActive := b |}.

(** [handleDrag], bound to [onDragEnter], [onDragLeave] and [onDragOver];
    [type] is [e.type]. *)
Definition handleDrag (type : jsstring) (st : State) : State :=
  if jsstring_eqb type (lit "dragenter") || jsstring_eqb type (lit "dragover") then
    setDragActive true st
  else if jsstring_eqb type (lit "dragleave") then
    setDragActive false st
  else st.

(** [handleDrop]; [files] is [e.dataTransfer.files], and [files[0]] is
    there when the list is not empty. *)
Definition handleDrop (maxImages : Z) (env : Upload.Env) (files : list File) (st : State)
  : State * Upload.Effects :=
  let st := setDragActive false st in
  if (0 <? length files)%nat then
    let (c, effects) := Upload.handleFiles maxImages env files (component st) in
    ({| component := c; dragActive := dragActive st |}, effects)
  else (st, Upload.no_effects).

(** [handleFileInput]; [files] is [e.target.files], which may be [null]. *)
Definition handleFileInput (maxImages : Z) (env : Upload.Env) (files : option (list File))
           (st : State) : State * Upload.Effects :=
  match files with
  | Some files =>
      let (c, effects) := Upload.handleFiles maxImages env files (component st) in
      ({| component := c; dragActive := dragActive st |}, effects)
  | None => (st, Upload.no_effects)
  end.

(** [images.reduce((total, img) => total + img.file.size, 0)], the byte
    count behind the total shown under the grid. *)
Definition totalSize (images : list UploadedImage) : N :=
  fold_left (fun total img => (total + file_size (img_file img))%N) images 0%N.

(** [disabled={images.length >= maxImages}] on the file input. *)
Definition inputDisabled (maxImages : Z) (st : State) : bool :=
  (Z.of_nat (length (Upload.images (component st))) >=? maxImages)%Z.

(** [images.length > 0 && ...] around the Clear All button. *)
Definition clearRendered (st : State) : bool :=
  (0 <? length (Upload.images (component st)))%nat.

(** A remove button is rendered for each image, with the image's
    identifier. *)
Definition removeRendered (id : jsstring) (st : State) : bool :=
  existsb (fun img => jsstring_eqb (img_id img) id) (Upload.images (component st)).

End UploadUI.

(** ** The other handlers of the page *)

Module PageUI.

(** [handleKeyPress]; [key] is [e.key] and [shiftKey] is [e.shiftKey]. *)
Definition handleKeyPress (key : jsstring) (shiftKey : bool) (env : Page.Env) (st : Page.State)
  : Page.State * Page.Effects :=
  if jsstring_eqb key (lit "Enter") && negb shiftKey then Page.handleSendQuery env st
  else (st, Page.no_effects).

(** A string (or [null]) as a condition: [null] and the empty string are
    falsy. *)
Definition truthy (v : option jsstring) : bool :=
  match v with
  | Some (_ :: _) => true
  | _ => false
  end.

(** The [onChange] handler of the input; [value] is [e.target.value]. *)
Definition onQueryChange (value : jsstring) (st : Page.State) : Page.State :=
  let st' := Page.setQuery value st in
  if truthy (Page.error st) then Page.setError None st' else st'.

(** [copyToClipboard]; [written] tells whether [writeText] resolved.  The
    handler touches no state; its toast is the result. *)
Definition copyToClipboard (text : jsstring) (written : bool) : Toast :=
  if written then
    {| toast_title := lit "Copied";
       toast_description := lit "Response copied to clipboard";
       toast_destructive := false |}
  else
    {| toast_title := lit "Copy Failed";
       toast_description := lit "Unable to copy to clipboard";
       toast_destructive := true |}.

(** [disabled={!query.trim() || images.length === 0 || isProcessing}] on the
    Send button. *)
Definition sendDisabled (st : Page.State) : bool :=
  (length (trim (Page.query st)) =? 0)%nat
  || (length (Page.images st) =? 0)%nat
  || Page.isProcessing st.

(** A copy button is rendered under each bot entry, with the entry's
    content. *)
Definition copyRendered (text : jsstring) (st : Page.State) : bool :=
  existsb (fun m => match Page.msg_type m with
                    | Page.bot => jsstring_eqb (Page.msg_content m) text
                    | _ => false
                    end) (Page.messages st).

End PageUI.

(** ** The events of the interface *)

Module UI.

Record State := {
  page : Page.State;
  uploader : UploadUI.State
}.

Definition initial : State :=
  {| page := App.page App.initial;
     uploader := {| UploadUI.component := App.upload App.initial;
                    UploadUI.dragActive := false |} |}.

(** What the user can do, with what the browser decides while the handler
    runs. *)
Inductive Event :=
| Drag (type : jsstring)
| Drop (env : Upload.Env) (files : list File)
| FileInput (env : Upload.Env) (files : option (list File))
| RemoveClick (id : jsstring)
| ClearClick
| TypeQuery (value : jsstring)
| KeyPress (env : Page.Env) (key : jsstring) (shiftKey : bool)
| SendClick (env : Page.Env)
| CopyClick (text : jsstring) (written : bool).

(** What an event lets out. *)
Record Outputs := {
  toasts : list Toast;
  requests : list Page.FetchRequest
}.

Definition silent : Outputs := {| toasts := []; requests := [] |}.

(** The page after the calls of [onImagesChange], which is [setImages]. *)
Definition notify (changes : list (list UploadedImage)) (p : Page.State) : Page.State :=
  fold_left (fun p l => Page.setImages l p) changes p.

Definition after_upload (st : State) (outcome : UploadUI.State * Upload.Effects)
  : State * Outputs :=
  ({| page := notify (Upload.imagesChanges (snd outcome)) (page st);
      uploader := fst outcome |},
   {| toasts := Upload.toasts (snd outcome); requests := [] |}).

Definition after_component (st : State) (outcome : Upload.State * Upload.Effects)
  : State * Outputs :=
  after_upload st ({| UploadUI.component := fst outcome;
                      UploadUI.dragActive := UploadUI.dragActive (uploader st) |},
                   snd outcome).

Definition after_page (st : State) (outcome : Page.State * Page.Effects) : State * Outputs :=
  ({| page := fst outcome; uploader := uploader st |},
   {| toasts := Page.toasts (snd outcome); requests := Page.requests (snd outcome) |}).

(** One event.  A control that is disabled or not rendered does not
    fire. *)
Definition step (e : Event) (st : State) : State * Outputs :=
  match e with
  | Drag type =>
      ({| page := page st; uploader := UploadUI.handleDrag type (uploader st) |}, silent)
  | Drop env files =>
      after_upload st (UploadUI.handleDrop App.maxImages env files (uploader st))
  | FileInput env files =>
      if UploadUI.inputDisabled App.maxImages (uploader st) then (st, silent)
      else after_upload st (UploadUI.handleFileInput App.maxImages env files (uploader st))
  | RemoveClick id =>
      if UploadUI.removeRendered id (uploader st)
      then after_component st (Upload.removeImage id (UploadUI.component (uploader st)))
      else (st, silent)
  | ClearClick =>
      if UploadUI.clearRendered (uploader st)
      then after_component st (Upload.clearAll (UploadUI.component (uploader st)))
      else (st, silent)
  | TypeQuery value =>
      if Page.isProcessing (page st) then (st, silent)
      else ({| page := PageUI.onQueryChange value (page st); uploader := uploader st |}, silent)
  | KeyPress env key shiftKey =>
      if Page.isProcessing (page st) then (st, silent)
      else after_page st (PageUI.handleKeyPress key shiftKey env (page st))
  | SendClick env =>
      if PageUI.sendDisabled (page st) then (st, silent)
      else after_page st (Page.handleSendQuery env (page st))
  | CopyClick text written =>
      if PageUI.copyRendered text (page st)
      then (st, {| toasts := [PageUI.copyToClipboard text written]; requests := [] |})
      else (st, silent)
  end.

(** A sequence of events, from the first to the last. *)
Definition run (events : list Event) (st : State) : State :=
  fold_left (fun s e => fst (step e s)) events st.

End UI.

(** * The vocabulary of the specification *)

Module FallbackSpec.
Import Endpoint.

(** The generator as the specification words it: a topic is chosen from
    the query once, every image gets a line, the lines are joined by a
    blank line and the demo note follows. *)
Inductive Topic := CountTopic | ColorTopic | TextTopic | GenericTopic.

Definition topic (query : jsstring) : Topic :=
  let lowered := toLowerCase query in
  if includes lowered (lit "count") || includes lowered (lit "how many") then CountTopic
  else if includes lowered (lit "color") then ColorTopic
  else if includes lowered (lit "text") || includes lowered (lit "read") then TextTopic
  else GenericTopic.

Definition content (t : Topic) (i : nat) : jsstring :=
  match t with
  | CountTopic =>
      lit "I can see " ++ number_to_string (nth (i mod 5) counts 0%Z)
        ++ lit " items in this image."
  | ColorTopic => lit "The dominant colors are " ++ nth (i mod 5) colors [] ++ lit "."
  | TextTopic => text_disclaimer
  | GenericTopic => nth (i mod 5) descriptions []
  end.

Definition line (query : jsstring) (i : nat) : jsstring :=
  lit "Image " ++ nat_to_string i ++ lit ": " ++ content (topic query) i.

Definition fallback (query : jsstring) (imageCount : nat) : jsstring :=
  join [LF; LF] (map (line query) (seq 1 imageCount)) ++ [LF; LF] ++ demo_note.

End FallbackSpec.

Module QuerySpec.

(** The names the specification gives to the three messages of
    [validateQuery]. *)
Definition EmptyQuery : jsstring := lit "Please enter a question about your images".
Definition TooShort : jsstring := lit "Query must be at least 3 characters long".
Definition TooLong : jsstring := lit "Query must be less than 500 characters".

(** [send] fails with a message: the message becomes the inline error, and
    nothing else of the state changes (the transcript and the pending flag
    among it); no request is sent and no toast is shown. *)
Definition fails_with (message : jsstring) (env : Page.Env) (st : Page.State) : Prop :=
  Page.handleSendQuery env st = (Page.setError (Some message) st, Page.no_effects).

(** A page holding one small PNG, with a given text in the input. *)
Definition one_image : UploadedImage :=
  {| img_id := lit "k3j9x0q1z";
     img_file := {| file_name := lit "a.png"; file_type := lit "image/png"; file_size := 2048 |};
     img_url := lit "data:image/png;base64,AAAA";
     img_name := lit "a.png" |}.

Definition typed (text : jsstring) : Page.State :=
  {| Page.images := [one_image]; Page.query := text; Page.messages := [];
     Page.isProcessing := false; Page.error := None |}.

(** An environment in which the endpoint answers every request. *)
Definition answering : Page.Env :=
  {| Page.random_id := fun k => lit "id" ++ nat_to_string k;
     Page.now := fun k => N.of_nat k;
     Page.fetch := fun _ => Page.FetchOk (lit "Image 1: a red mug.") |}.

End QuerySpec.

Module IntakeSpec.
Import Upload.

(** A file satisfies the type, format and size constraints. *)
Definition acceptable (file : File) : Prop :=
  startsWith (file_type file) (lit "image/") = true
  /\ In (file_type file) supportedTypes
  /\ (file_size file <= ten_MiB)%N.

(** Why a file of a batch is not taken, if it is not: it fails
    validation, or it is valid and cannot be read. *)
Definition failure_reason (env : Env) (file : File) : option jsstring :=
  match validateFile file with
  | Some validationError => Some validationError
  | None =>
      match readAsDataURL env file with
      | Some _ => None
      | None => Some (lit "Failed to process " ++ file_name file)
      end
  end.

(** The failure reasons of a batch, in the order of the batch. *)
Definition failure_reasons (env : Env) (files : list File) : list jsstring :=
  flat_map (fun file => match failure_reason env file with
                        | Some reason => [reason]
                        | None => []
                        end) files.

(** The images made of the files of a batch that are valid and readable,
    in the order of the batch; [calls] identifiers were drawn before. *)
Fixpoint accepted (env : Env) (files : list File) (calls : nat) : list UploadedImage :=
  match files with
  | [] => []
  | file :: rest =>
      match validateFile file with
      | Some _ => accepted env rest calls
      | None =>
          match readAsDataURL env file with
          | Some base64Url =>
              {| img_id := random_id env calls; img_file := file;
                 img_url := base64Url; img_name := file_name file |}
                :: accepted env rest (S calls)
          | None => accepted env rest (S calls)
          end
      end
  end.

(** The notification of a failed batch. *)
Definition failure_toast (failures : nat) : Toast :=
  {| toast_title := lit "Upload Error";
     toast_description :=
       nat_to_string failures ++ lit " file" ++ (if failures =? 1 then [] else lit "s")
         ++ lit " could not be uploaded";
     toast_destructive := true |}.

(** The capacity-exceeded reason: how many more images fit. *)
Definition capacity_exceeded (remaining : Z) : jsstring :=
  lit "Can only upload " ++ number_to_string remaining ++ lit " more image"
    ++ (if (remaining =? 1)%Z then [] else lit "s").

(** A readable environment and some files to try the statements on. *)
Definition reads_all : Env :=
  {| readAsDataURL := fun file => Some (lit "data:" ++ file_type file ++ lit ";base64,AAAA");
     random_id := fun k => lit "id" ++ nat_to_string k |}.

Definition png (name : String.string) (size : N) : File :=
  {| file_name := lit name; file_type := lit "image/png"; file_size := size |}.

Arguments png name%_string size%_N.

Definition notes_txt : File :=
  {| file_name := lit "notes.txt"; file_type := lit "text/plain"; file_size := 120 |}.

Definition empty : State := {| images := []; uploadError := None |}.

End IntakeSpec.

Module EndpointSpec.
Import Endpoint.

Definition bad_request : HttpResponse :=
  {| status := 400; body := ResponseError (lit "Query and images are required") |}.

(** A provider without a valid key: every call fails. *)
Definition failing_provider : GenerateTextCall -> Settled jsstring :=
  fun _ => Rejected (ThrownError (lit "Incorrect API key provided")).

Definition two_images : list ImageRef :=
  [ {| ref_url := lit "data:image/png;base64,AAAA"; ref_name := lit "a.png" |};
    {| ref_url := lit "data:image/png;base64,BBBB"; ref_name := lit "b.png" |} ].

End EndpointSpec.

Module RemovalSpec.

(** How many images of a list carry an identifier. *)
Definition occurrences (id : jsstring) (l : list UploadedImage) : nat :=
  length (filter (fun img => jsstring_eqb (img_id img) id) l).

(** The images that do not carry an identifier, in their order. *)
Definition others (id : jsstring) (l : list UploadedImage) : list UploadedImage :=
  filter (fun img => if jsstring_eqb (img_id img) id then false else true) l.

Definition image (id : String.string) : UploadedImage :=
  {| img_id := lit id;
     img_file := {| file_name := lit "p.png"; file_type := lit "image/png"; file_size := 1 |};
     img_url := lit "data:image/png;base64,AAAA";
     img_name := lit "p.png" |}.

Arguments image id%_string.

Definition holding (l : list UploadedImage) : Upload.State :=
  {| Upload.images := l; Upload.uploadError := None |}.

End RemovalSpec.

Module BoundsSpec.

(** An image whose file is at most 10 MiB. *)
Definition small (img : UploadedImage) : Prop :=
  (file_size (img_file img) <= 10 * 1024 * 1024)%N.

(** At most 4 images, each of them small. *)
Definition bounded (l : list UploadedImage) : Prop :=
  length l <= 4 /\ Forall small l.

(** What every intake operation keeps: the component holds a bounded list,
    and the page holds the same list. *)
Definition invariant (st : App.State) : Prop :=
  bounded (Upload.images (App.upload st))
  /\ Page.images (App.page st) = Upload.images (App.upload st).

End BoundsSpec.

Module SendSpec.

(** The number of entries of a kind in a transcript. *)
Definition bot_entries (l : list Page.ChatMessage) : nat :=
  length (filter (fun m => match Page.msg_type m with Page.bot => true | _ => false end) l).

Definition ready : App.State :=
  {| App.page := QuerySpec.typed (lit "What colors?");
     App.upload := {| Upload.images := [QuerySpec.one_image]; Upload.uploadError := None |} |}.

End SendSpec.

(** Words for the properties of the handlers the sections above do not
    name. *)
Module Terms.

(** The label that opens the line of image [i]. *)
Definition label (i : nat) : jsstring := lit "Image " ++ nat_to_string i ++ lit ": ".

(** The messages of [validateImages]. *)
Definition NoImages : jsstring :=
  lit "Please upload at least one image before asking a question".
Definition TooManyImages : jsstring := lit "Maximum 4 images allowed".

Definition oversized (img : UploadedImage) : bool :=
  (ten_MiB <? file_size (img_file img))%N.

Definition OversizedImages (l : list UploadedImage) : jsstring :=
  lit "Image(s) too large: " ++ join (lit ", ") (map img_name (filter oversized l))
    ++ lit ". Maximum size is 10MB per image.".

(** The entry that [handleSendQuery] makes of the query and the images
    of a state. *)
Definition userMessage (env : Page.Env) (st : Page.State) : Page.ChatMessage :=
  {| Page.msg_id := Page.random_id env 0;
     Page.msg_type := Page.user;
     Page.msg_content := Page.query st;
     Page.msg_images := Some (Page.images st);
     Page.msg_timestamp := Page.now env 0 |}.

(** The messages of [validateFile]. *)
Definition NotAnImage (file : File) : jsstring :=
  file_name file ++ lit " is not a valid image file".
Definition TooLarge (file : File) : jsstring :=
  file_name file ++ lit " is too large (" ++ Upload.megabytes_toFixed1 (file_size file)
    ++ lit "MB). Maximum size is 10MB".
Definition Unsupported (file : File) : jsstring :=
  file_name file ++ lit " format not supported. Please use JPG, PNG, GIF, or WebP".

Definition unreadable (env : Upload.Env) (file : File) : bool :=
  match Upload.readAsDataURL env file with
  | Some _ => false
  | None => true
  end.

(** The events that reach the handlers of the upload component, and the
    events that can reach [handleSendQuery]. *)
Definition is_intake (e : UI.Event) : bool :=
  match e with
  | UI.Drag _ | UI.Drop _ _ | UI.FileInput _ _ | UI.RemoveClick _ | UI.ClearClick => true
  | _ => false
  end.

Definition is_send (e : UI.Event) : bool :=
  match e with
  | UI.SendClick _ => true
  | UI.KeyPress _ key shiftKey => jsstring_eqb key (lit "Enter") && negb shiftKey
  | _ => false
  end.

(** What every event of the interface keeps: the component holds at most 4
    images of at most 10 MiB each, the page holds the same images, and no
    request is pending between two events. *)
Definition ui_invariant (st : UI.State) : Prop :=
  BoundsSpec.bounded (Upload.images (UploadUI.component (UI.uploader st)))
  /\ Page.images (UI.page st) = Upload.images (UploadUI.component (UI.uploader st))
  /\ Page.isProcessing (UI.page st) = false.

(** What a handler of the component leaves behind: a bounded list, which
    the page has after the calls of [onImagesChange]. *)
Definition kept (p : Page.State) (outcome : Upload.State * Upload.Effects) : Prop :=
  BoundsSpec.bounded (Upload.images (fst outcome))
  /\ Page.images (UI.notify (Upload.imagesChanges (snd outcome)) p)
     = Upload.images (fst outcome).

(** A request that the page sends, as the endpoint reads it. *)
Definition as_body (request : Page.FetchRequest) : Endpoint.RequestBody :=
  Endpoint.BodyObject (Some (Page.req_query request)) (Some (Page.req_images request)).

(** A provider that answers every call. *)
Definition echo_provider : Endpoint.GenerateTextCall -> Settled jsstring :=
  fun call => Resolved (lit "Image 1: a red mug.").

(** An environment in which one file cannot be read. *)
Definition reads_all_but (name : String.string) : Upload.Env :=
  {| Upload.readAsDataURL :=
       fun file => if jsstring_eqb (file_name file) (lit name) then None
                   else Some (lit "data:" ++ file_type file ++ lit ";base64,AAAA");
     Upload.random_id := fun k => lit "id" ++ nat_to_string k |}.

Arguments reads_all_but name%_string.

End Terms.

(** * Properties *)

(** ** Strings *)

Lemma jsstring_eqb_eq (s t : jsstring) : jsstring_eqb s t = true <-> s = t.
Proof.
  revert t; induction s as [|c s IH]; intros [|d t]; simpl; split;
    try congruence; try reflexivity.
  - intros H. apply andb_prop in H as [Hc Hs].
    apply N.eqb_eq in Hc. apply IH in Hs. congruence.
  - intros H. injection H as -> ->.
    unfold code_unit_eqb. rewrite N.eqb_refl. simpl. now apply IH.
Qed.

Lemma jsstring_eqb_refl (s : jsstring) : jsstring_eqb s s = true.
Proof. now apply jsstring_eqb_eq. Qed.

Lemma jsstring_eqb_neq (s t : jsstring) : jsstring_eqb s t = false <-> s <> t.
Proof.
  split.
  - intros H E. apply jsstring_eqb_eq in E. congruence.
  - intros H. destruct (jsstring_eqb s t) eqn:E; [|reflexivity].
    apply jsstring_eqb_eq in E. contradiction.
Qed.

(** [startsWith] and [includes] find what they are named after. *)
Lemma startsWith_prefix (s searchString : jsstring) :
  startsWith s searchString = true <-> exists rest, s = searchString ++ rest.
Proof.
  revert s; induction searchString as [|c search IH]; intros s; simpl.
  - split; [intros _; now exists s | intros _; destruct s; reflexivity].
  - destruct s as [|d s]; simpl.
    + split; [discriminate | intros [rest H]; discriminate].
    + rewrite andb_true_iff, IH. unfold code_unit_eqb. rewrite N.eqb_eq. split.
      * intros [-> [rest ->]]. now exists rest.
      * intros [rest H]. injection H as -> ->. split; [reflexivity | now exists rest].
Qed.

Lemma includes_substring (s searchString : jsstring) :
  includes s searchString = true
  <-> exists before rest, s = before ++ searchString ++ rest.
Proof.
  induction s as [|d s IH]; cbn [includes]; rewrite orb_true_iff, startsWith_prefix.
  - split.
    + intros [[rest H] | H]; [|discriminate]. now exists [], rest.
    + intros [before [rest H]]. left. exists rest.
      destruct before; [exact H | discriminate].
  - rewrite IH. split.
    + intros [[rest H] | [before [rest H]]].
      * now exists [], rest.
      * exists (d :: before), rest. simpl. now rewrite H.
    + intros [[|b before] [rest H]].
      * left. now exists rest.
      * right. injection H as _ H. now exists before, rest.
Qed.

(** [trimStart] stops at the first character that is not white space. *)
Lemma trimStart_nil (s : jsstring) :
  trimStart s = [] <-> forallb is_white_space s = true.
Proof.
  induction s as [|c s IH]; simpl; [split; reflexivity|].
  destruct (is_white_space c); simpl; [exact IH|].
  split; discriminate.
Qed.

Lemma trimStart_head (s : jsstring) (c : code_unit) (rest : jsstring) :
  trimStart s = c :: rest -> is_white_space c = false.
Proof.
  induction s as [|d s IH]; simpl; [discriminate|].
  destruct (is_white_space d) eqn:E; [exact IH|].
  intros H. injection H as -> _. exact E.
Qed.

(** A string is blank after trimming exactly when all its characters are
    white space. *)
Lemma trim_blank (s : jsstring) :
  trim s = [] <-> forallb is_white_space s = true.
Proof.
  unfold trim, trimEnd. split.
  - intros H. apply trimStart_nil.
    destruct (trimStart s) as [|c rest] eqn:E; [reflexivity|].
    apply trimStart_head in E.
    assert (Hrev : trimStart (rev (c :: rest)) = []).
    { apply (f_equal (@rev code_unit)) in H. now rewrite rev_involutive in H. }
    apply trimStart_nil in Hrev. rewrite forallb_forall in Hrev.
    specialize (Hrev c). rewrite <- in_rev in Hrev.
    rewrite Hrev in E by now left. discriminate.
  - intros H. apply trimStart_nil in H. now rewrite H.
Qed.

(** ** The fallback generator *)

Section FallbackLoop.
Import Endpoint.

Variable query : jsstring.
Variable imageCount : nat.

(** The loop pushes the iterations of [i], [i+1], ... for as long as the
    fuel lasts and the bound allows. *)
Lemma fallback_loop_unfold (fuel i : nat) (responses : list jsstring) :
  i + fuel = S imageCount ->
  fallback_loop query imageCount fuel i responses
  = responses ++ map (fallback_iteration query) (seq i fuel).
Proof.
  revert i responses; induction fuel as [|fuel IH]; intros i responses Hsum; simpl.
  - now rewrite app_nil_r.
  - assert (Hle : (i <=? imageCount) = true) by (apply Nat.leb_le; lia).
    rewrite Hle, IH by lia.
    now rewrite <- app_assoc.
Qed.

(** Once [i] is past the bound the loop is left, whatever fuel remains. *)
Lemma fallback_loop_done (fuel i : nat) (responses : list jsstring) :
  imageCount < i -> fallback_loop query imageCount fuel i responses = responses.
Proof.
  intros Hlt. destruct fuel; simpl; [reflexivity|].
  assert (Hle : (i <=? imageCount) = false) by (apply Nat.leb_gt; lia).
  now rewrite Hle.
Qed.

(** [imageCount] iterations are all the loop ever takes: more fuel changes
    nothing. *)
Lemma fallback_loop_fuel (extra : nat) :
  fallback_loop query imageCount (imageCount + extra) 1 [] = fallback_responses query imageCount.
Proof.
  unfold fallback_responses.
  assert (G : forall fuel i responses, i + fuel = S imageCount ->
            fallback_loop query imageCount (fuel + extra) i responses
            = fallback_loop query imageCount fuel i responses).
  { induction fuel as [|fuel IH]; intros i responses Hsum; simpl.
    - apply fallback_loop_done. lia.
    - destruct (i <=? imageCount); [apply IH; lia | reflexivity]. }
  apply G. lia.
Qed.

Lemma fallback_responses_map :
  fallback_responses query imageCount = map (fallback_iteration query) (seq 1 imageCount).
Proof. unfold fallback_responses. now rewrite fallback_loop_unfold by lia. Qed.

Lemma mod5_lt (i : nat) : i mod 5 < 5.
Proof. apply Nat.mod_upper_bound. discriminate. Qed.

(** Inside the bounds of the list, an element prints as itself. *)
Lemma element_nth {A} (show : A -> jsstring) (l : list A) (index : nat) (d : A) :
  index < length l -> element show l index = show (nth index l d).
Proof.
  intros H. unfold element.
  now rewrite (nth_error_nth' l d H).
Qed.

(** One iteration of the loop is the line of the specification. *)
Lemma fallback_iteration_line (i : nat) :
  fallback_iteration query i = FallbackSpec.line query i.
Proof.
  unfold fallback_iteration, FallbackSpec.line, FallbackSpec.topic.
  destruct (includes (toLowerCase query) (lit "count")
            || includes (toLowerCase query) (lit "how many")).
  - cbv zeta. unfold FallbackSpec.content.
    rewrite (element_nth number_to_string counts _ 0%Z) by (apply mod5_lt).
    change (length counts) with 5. now rewrite <- !app_assoc.
  - destruct (includes (toLowerCase query) (lit "color")).
    + cbv zeta. unfold FallbackSpec.content.
      rewrite (element_nth (fun s => s) colors _ []) by (apply mod5_lt).
      change (length colors) with 5. now rewrite <- !app_assoc.
    + destruct (includes (toLowerCase query) (lit "text")
                || includes (toLowerCase query) (lit "read")).
      * cbv zeta. unfold FallbackSpec.content. now rewrite <- !app_assoc.
      * cbv zeta. unfold FallbackSpec.content.
        rewrite (element_nth (fun s => s) descriptions _ []) by (apply mod5_lt).
        change (length descriptions) with 5. now rewrite <- !app_assoc.
Qed.

Lemma fallback_responses_lines :
  fallback_responses query imageCount = map (FallbackSpec.line query) (seq 1 imageCount).
Proof.
  rewrite fallback_responses_map. apply map_ext. apply fallback_iteration_line.
Qed.

End FallbackLoop.

(** C1. For every query and every [imageCount >= 1] the fallback generator
    is the specification's generator: one line [Image i: ...] for each
    [i = 1..imageCount], in order, its content chosen by the keywords of the
    lower-cased query (count / how many, else color, else text / read,
    else generic) and, in the cycling branches, by the list entry at
    [i mod 5]; the lines are joined by a blank line and the demo note
    follows.  For ["How many items?"] and 7 images there are 7 lines and
    the sixth uses entry 1 of the counts; for ["What colors?"] and 2
    images the text is the line of image 1 with the warm earth tones, the
    line of image 2 with entry 2 of the palette, and the note. *)
Theorem C1_fallback_generator (query : jsstring) (imageCount : nat) :
  1 <= imageCount ->
  Endpoint.generateFallbackResponse query imageCount = FallbackSpec.fallback query imageCount
  /\ length (Endpoint.fallback_responses query imageCount) = imageCount
  /\ (forall i, 1 <= i <= imageCount ->
        nth_error (Endpoint.fallback_responses query imageCount) (i - 1)
        = Some (lit "Image " ++ nat_to_string i ++ lit ": "
                  ++ FallbackSpec.content (FallbackSpec.topic query) i))
  /\ (length (Endpoint.fallback_responses (lit "How many items?") 7) = 7
      /\ nth_error Endpoint.counts (6 mod 5) = Some 5%Z
      /\ nth_error (Endpoint.fallback_responses (lit "How many items?") 7) 5
         = Some (lit "Image 6: I can see 5 items in this image."))
  /\ (nth_error Endpoint.colors 2 = Some (lit "bright yellow and green")
      /\ Endpoint.generateFallbackResponse (lit "What colors?") 2
         = lit "Image 1: The dominant colors are warm earth tones." ++ [LF; LF]
             ++ lit "Image 2: The dominant colors are bright yellow and green." ++ [LF; LF]
             ++ Endpoint.demo_note).
Proof.
  intros Hpos. repeat split; try (vm_compute; reflexivity).
  - unfold Endpoint.generateFallbackResponse, FallbackSpec.fallback.
    now rewrite fallback_responses_lines.
  - rewrite fallback_responses_lines. now rewrite length_map, length_seq.
  - intros i [Hlo Hhi]. rewrite fallback_responses_lines.
    rewrite nth_error_map.
    assert (Hseq : nth_error (seq 1 imageCount) (i - 1) = Some i).
    { rewrite nth_error_nth' with (d := 0) by (rewrite length_seq; lia).
      rewrite seq_nth by lia. f_equal. lia. }
    rewrite Hseq. reflexivity.
Qed.

Lemma C1_fallback_generator_witness :
  Endpoint.generateFallbackResponse (lit "Describe these") 3
  = FallbackSpec.fallback (lit "Describe these") 3.
Proof.
  apply (C1_fallback_generator (lit "Describe these") 3). lia.
Defined.

(** ** Query validation *)

Lemma length_zero_iff_nil' {A} (l : list A) : (length l =? 0) = true <-> l = [].
Proof.
  destruct l; simpl; split; intros H; try reflexivity; discriminate.
Qed.

Lemma validateQuery_blank (q : jsstring) :
  trim q = [] -> Page.validateQuery q = Some QuerySpec.EmptyQuery.
Proof. intros H. unfold Page.validateQuery. now rewrite H. Qed.

Lemma validateQuery_short (q : jsstring) :
  trim q <> [] -> length q < 3 -> Page.validateQuery q = Some QuerySpec.TooShort.
Proof.
  intros Hb Hlen. unfold Page.validateQuery.
  destruct (length (trim q) =? 0) eqn:E.
  - apply length_zero_iff_nil' in E. contradiction.
  - apply Nat.ltb_lt in Hlen. now rewrite Hlen.
Qed.

Lemma validateQuery_long (q : jsstring) :
  trim q <> [] -> 500 < length q -> Page.validateQuery q = Some QuerySpec.TooLong.
Proof.
  intros Hb Hlen. unfold Page.validateQuery.
  destruct (length (trim q) =? 0) eqn:E.
  - apply length_zero_iff_nil' in E. contradiction.
  - assert (H3 : (length q <? 3) = false) by (apply Nat.ltb_ge; lia).
    apply Nat.ltb_lt in Hlen. now rewrite H3, Hlen.
Qed.

(** A query that fails validation stops [send] before anything else
    happens. *)
Lemma send_stops_on_query_error (env : Page.Env) (st : Page.State) (message : jsstring) :
  Page.validateQuery (Page.query st) = Some message -> QuerySpec.fails_with message env st.
Proof.
  intros H. unfold QuerySpec.fails_with, Page.handleSendQuery. now rewrite H.
Qed.

(** C2, as the code has it.  A query that is blank after trimming fails
    with EmptyQuery; a query that is not blank and whose length, untrimmed,
    is under 3 fails with TooShort; a query that is not blank and whose
    length is over 500 fails with TooLong.  In each case the transcript is
    unchanged and no request is issued. *)
Theorem C2_send_rejects_bad_queries (env : Page.Env) (st : Page.State) :
  let outcome := Page.handleSendQuery env st in
  (trim (Page.query st) = [] ->
     QuerySpec.fails_with QuerySpec.EmptyQuery env st
     /\ Page.messages (fst outcome) = Page.messages st
     /\ Page.requests (snd outcome) = [])
  /\ (trim (Page.query st) <> [] -> length (Page.query st) < 3 ->
     QuerySpec.fails_with QuerySpec.TooShort env st
     /\ Page.messages (fst outcome) = Page.messages st
     /\ Page.requests (snd outcome) = [])
  /\ (trim (Page.query st) <> [] -> 500 < length (Page.query st) ->
     QuerySpec.fails_with QuerySpec.TooLong env st
     /\ Page.messages (fst outcome) = Page.messages st
     /\ Page.requests (snd outcome) = []).
Proof.
  cbv zeta. split; [|split].
  - intros Hb.
    pose proof (send_stops_on_query_error env st _ (validateQuery_blank _ Hb)) as F.
    split; [exact F|]. rewrite F. split; reflexivity.
  - intros Hb Hlen.
    pose proof (send_stops_on_query_error env st _ (validateQuery_short _ Hb Hlen)) as F.
    split; [exact F|]. rewrite F. split; reflexivity.
  - intros Hb Hlen.
    pose proof (send_stops_on_query_error env st _ (validateQuery_long _ Hb Hlen)) as F.
    split; [exact F|]. rewrite F. split; reflexivity.
Qed.

Lemma C2_send_rejects_bad_queries_witness :
  QuerySpec.fails_with QuerySpec.EmptyQuery QuerySpec.answering (QuerySpec.typed (lit "   "))
  /\ QuerySpec.fails_with QuerySpec.TooShort QuerySpec.answering (QuerySpec.typed (lit "ab"))
  /\ QuerySpec.fails_with QuerySpec.TooLong QuerySpec.answering
       (QuerySpec.typed (repeat 97%N 501)).
Proof.
  split; [|split].
  - apply (C2_send_rejects_bad_queries QuerySpec.answering (QuerySpec.typed (lit "   "))).
    reflexivity.
  - apply (C2_send_rejects_bad_queries QuerySpec.answering (QuerySpec.typed (lit "ab"))).
    + discriminate.
    + simpl. lia.
  - apply (C2_send_rejects_bad_queries QuerySpec.answering (QuerySpec.typed (repeat 97%N 501))).
    + vm_compute. discriminate.
    + unfold QuerySpec.typed; cbn [Page.query]. rewrite repeat_length. lia.
Defined.

(** C2 as stated fails.  The text ["  a  "] has one character after
    trimming, yet it passes validation, because the lower bound is taken on
    the five characters typed: [send] appends to the transcript and issues
    a request.  The empty text has fewer than 3 characters, and 501 spaces
    are more than 500, but both fail with EmptyQuery, which is checked
    first. *)
Lemma C2_counterexample :
  let st := QuerySpec.typed (lit "  a  ") in
  let outcome := Page.handleSendQuery QuerySpec.answering st in
  (length (trim (Page.query st)) = 1
   /\ Page.validateQuery (Page.query st) = None
   /\ ~ QuerySpec.fails_with QuerySpec.TooShort QuerySpec.answering st
   /\ length (Page.messages st) = 0
   /\ length (Page.messages (fst outcome)) = 2
   /\ length (Page.requests (snd outcome)) = 1)
  /\ (length (@nil code_unit) < 3
      /\ QuerySpec.fails_with QuerySpec.EmptyQuery QuerySpec.answering (QuerySpec.typed [])
      /\ ~ QuerySpec.fails_with QuerySpec.TooShort QuerySpec.answering (QuerySpec.typed []))
  /\ (500 < length (repeat 32%N 501)
      /\ QuerySpec.fails_with QuerySpec.EmptyQuery QuerySpec.answering
           (QuerySpec.typed (repeat 32%N 501))
      /\ ~ QuerySpec.fails_with QuerySpec.TooLong QuerySpec.answering
             (QuerySpec.typed (repeat 32%N 501))).
Proof.
  cbv zeta. unfold QuerySpec.fails_with.
  repeat split; try (vm_compute; reflexivity); try (vm_compute; lia);
    try (vm_compute; discriminate).
Qed.

(** ** Image intake *)

Section Intake.
Import Upload IntakeSpec.

Lemma supported_In (type : jsstring) :
  existsb (jsstring_eqb type) supportedTypes = true <-> In type supportedTypes.
Proof.
  rewrite existsb_exists. split.
  - intros [t [Hin Heq]]. apply jsstring_eqb_eq in Heq. now subst.
  - intros Hin. exists type. split; [assumption | apply jsstring_eqb_refl].
Qed.

(** [validateFile] accepts exactly the files that satisfy the three
    constraints. *)
Lemma validateFile_None_iff (file : File) :
  validateFile file = None <-> acceptable file.
Proof.
  unfold validateFile, acceptable.
  destruct (startsWith (file_type file) (lit "image/")) eqn:Hprefix; cbn [negb].
  2: { split; [discriminate | intros [H _]; discriminate]. }
  destruct (ten_MiB <? file_size file)%N eqn:Hsize.
  { apply N.ltb_lt in Hsize. split; [discriminate | intros (_ & _ & H); lia]. }
  apply N.ltb_ge in Hsize.
  destruct (existsb (jsstring_eqb (file_type file)) supportedTypes) eqn:Hsupp; cbn [negb].
  - apply supported_In in Hsupp. split; [intros _; repeat split; assumption | reflexivity].
  - split; [discriminate|]. intros (_ & Hin & _).
    apply supported_In in Hin. congruence.
Qed.

Variable env : Env.

(** The loop, in one equation: it appends the accepted images and the
    failure reasons of the batch to what it was given. *)
Lemma handleFiles_loop_eq (files : list File) (calls : nat)
      (newImages : list UploadedImage) (errors : list jsstring) :
  handleFiles_loop env files calls newImages errors
  = (newImages ++ accepted env files calls, errors ++ failure_reasons env files).
Proof.
  revert calls newImages errors.
  induction files as [|file rest IH]; intros calls newImages errors; simpl.
  - now rewrite !app_nil_r.
  - unfold failure_reason.
    destruct (validateFile file) as [validationError|].
    + rewrite IH. now rewrite <- app_assoc.
    + destruct (readAsDataURL env file) as [base64Url|]; rewrite IH.
      * now rewrite <- app_assoc.
      * now rewrite <- app_assoc.
Qed.

(** Every file of a batch is accepted or gives a failure reason. *)
Lemma accepted_failures_length (files : list File) (calls : nat) :
  length (accepted env files calls) + length (failure_reasons env files) = length files.
Proof.
  revert calls; induction files as [|file rest IH]; intros calls; simpl; [reflexivity|].
  unfold failure_reason.
  destruct (validateFile file); simpl.
  - rewrite <- (IH calls). lia.
  - destruct (readAsDataURL env file); simpl; rewrite <- (IH (S calls)); lia.
Qed.

(** Accepted images carry valid files. *)
Lemma accepted_valid (files : list File) (calls : nat) :
  Forall (fun img => validateFile (img_file img) = None) (accepted env files calls).
Proof.
  revert calls; induction files as [|file rest IH]; intros calls; simpl; [constructor|].
  destruct (validateFile file) eqn:Hvalid; [apply IH|].
  destruct (readAsDataURL env file); [|apply IH].
  constructor; [exact Hvalid | apply IH].
Qed.

(** A file that fails validation leaves a failure reason. *)
Lemma invalid_file_fails (files : list File) (file : File) :
  In file files -> validateFile file <> None -> failure_reasons env files <> [].
Proof.
  intros Hin Hinvalid Hnil. unfold failure_reasons in Hnil.
  assert (Hone : In file files -> forall reason,
            failure_reason env file = Some reason ->
            In reason (flat_map (fun file => match failure_reason env file with
                                             | Some reason => [reason]
                                             | None => []
                                             end) files)).
  { intros _ reason Hreason. apply in_flat_map. exists file. split; [assumption|].
    rewrite Hreason. now left. }
  unfold failure_reason in Hone at 1.
  destruct (validateFile file) as [validationError|]; [|congruence].
  specialize (Hone Hin validationError eq_refl). rewrite Hnil in Hone. contradiction.
Qed.

(** When every file is valid and readable, every file is accepted, in
    order, and nothing fails. *)
Lemma accepted_all (files : list File) (calls : nat) :
  Forall (fun file => validateFile file = None) files ->
  Forall (fun file => readAsDataURL env file <> None) files ->
  map img_file (accepted env files calls) = files /\ failure_reasons env files = [].
Proof.
  revert calls; induction files as [|file rest IH]; intros calls Hvalid Hread; simpl.
  - split; reflexivity.
  - inversion Hvalid as [|? ? Hv Hvs]; inversion Hread as [|? ? Hr Hrs]; subst.
    unfold failure_reason. rewrite Hv.
    destruct (readAsDataURL env file) as [base64Url|]; [|congruence].
    destruct (IH (S calls) Hvs Hrs) as [Hfiles Hnone].
    simpl. split; [now rewrite Hfiles | exact Hnone].
Qed.

End Intake.

Section IntakeBatches.
Import Upload IntakeSpec.

Variable env : Env.
Variable files : list File.
Variable st : State.

Lemma plural_unless_one_nat (n : nat) :
  plural_unless_one (Z.of_nat n) = if n =? 1 then [] else lit "s".
Proof.
  unfold plural_unless_one.
  destruct (n =? 1) eqn:E.
  - apply Nat.eqb_eq in E. now subst.
  - apply Nat.eqb_neq in E.
    assert (H : (Z.of_nat n =? 1)%Z = false) by (apply Z.eqb_neq; lia).
    now rewrite H.
Qed.

(** What [handleFiles] does with a batch that fits: it fails as a whole on
    the first failure reason, or takes every image the loop accepted. *)
Lemma handleFiles_within_capacity (maxImages : Z) :
  (Z.of_nat (length files) <= maxImages - Z.of_nat (length (images st)))%Z ->
  handleFiles maxImages env files st
  = match failure_reasons env files with
    | first :: others =>
        ({| images := images st; uploadError := Some first |},
         {| imagesChanges := [];
            toasts := [failure_toast (length (first :: others))] |})
    | [] =>
        if 0 <? length (accepted env files 0) then
          ({| images := images st ++ accepted env files 0; uploadError := None |},
           {| imagesChanges := [images st ++ accepted env files 0];
              toasts := [ {| toast_title := lit "Upload Successful";
                             toast_description :=
                               nat_to_string (length (accepted env files 0)) ++ lit " image"
                                 ++ plural_unless_one (Z.of_nat (length (accepted env files 0)))
                                 ++ lit " uploaded successfully";
                             toast_destructive := false |} ] |})
        else ({| images := images st; uploadError := None |}, no_effects)
    end.
Proof.
  intros Hfits. unfold handleFiles.
  assert (Hcmp : (Z.of_nat (length files) >? maxImages - Z.of_nat (length (images st)))%Z = false)
    by (rewrite Z.gtb_ltb; apply Z.ltb_ge; lia).
  rewrite Hcmp, handleFiles_loop_eq.
  cbn [app].
  destruct (failure_reasons env files) as [|first others]; [reflexivity|].
  unfold failure_toast. now rewrite plural_unless_one_nat.
Qed.

Lemma handleFiles_over_capacity (maxImages : Z) :
  (Z.of_nat (length files) > maxImages - Z.of_nat (length (images st)))%Z ->
  handleFiles maxImages env files st
  = ({| images := images st;
        uploadError := Some (capacity_exceeded (maxImages - Z.of_nat (length (images st)))) |},
     no_effects).
Proof.
  intros Hover. unfold handleFiles.
  assert (Hcmp : (Z.of_nat (length files) >? maxImages - Z.of_nat (length (images st)))%Z = true)
    by (rewrite Z.gtb_ltb; apply Z.ltb_lt; lia).
  now rewrite Hcmp.
Qed.

(** C3, as the code has it.  A batch in which at least one file fails
    validation adds no image and reports no new list to the page, whatever
    its size.  When the batch fits the remaining capacity, the reason
    surfaced is the first failure reason of the batch, in batch order,
    counting the valid files that could not be read, and one notification
    gives the number of failures. *)
Theorem C3_failed_batch_adds_nothing :
  (exists file, In file files /\ validateFile file <> None) ->
  let outcome := handleFiles App.maxImages env files st in
  images (fst outcome) = images st
  /\ imagesChanges (snd outcome) = []
  /\ ((Z.of_nat (length files) <= App.maxImages - Z.of_nat (length (images st)))%Z ->
      failure_reasons env files <> []
      /\ uploadError (fst outcome) = hd_error (failure_reasons env files)
      /\ toasts (snd outcome) = [failure_toast (length (failure_reasons env files))]).
Proof.
  intros [file [Hin Hinvalid]]. cbv zeta.
  pose proof (invalid_file_fails env files file Hin Hinvalid) as Hfails.
  destruct (Z_le_gt_dec (Z.of_nat (length files))
                        (App.maxImages - Z.of_nat (length (images st)))) as [Hfits|Hover].
  - rewrite (handleFiles_within_capacity _ Hfits).
    destruct (failure_reasons env files) as [|first others]; [contradiction|].
    cbn [fst snd images imagesChanges uploadError toasts hd_error].
    split; [reflexivity|]. split; [reflexivity|]. intros _.
    split; [discriminate|]. split; reflexivity.
  - rewrite (handleFiles_over_capacity _ Hover).
    cbn [fst snd images imagesChanges no_effects].
    split; [reflexivity|]. split; [reflexivity|]. intros Hfits. lia.
Qed.

(** C4.  A batch with more files than the remaining capacity (4 minus the
    images held) is refused as a whole, whatever its files are: the images
    are the same, nothing is reported to the page, no notification is
    shown, and the reason surfaced is the capacity-exceeded one. *)
Theorem C4_over_capacity_rejects_batch :
  (Z.of_nat (length files) > 4 - Z.of_nat (length (images st)))%Z ->
  handleFiles App.maxImages env files st
  = ({| images := images st;
        uploadError := Some (capacity_exceeded (4 - Z.of_nat (length (images st)))) |},
     no_effects).
Proof. intros Hover. now apply handleFiles_over_capacity. Qed.

(** C5.  A batch in which every file satisfies the type, format and size
    constraints, that fits the remaining capacity, and whose files all
    encode, is accepted whole: the images held before are followed by one
    image per file, in order, so there are as many more images as files. *)
Theorem C5_valid_batch_accepted :
  Forall acceptable files ->
  (Z.of_nat (length files) <= App.maxImages - Z.of_nat (length (images st)))%Z ->
  Forall (fun file => readAsDataURL env file <> None) files ->
  let outcome := handleFiles App.maxImages env files st in
  length (images (fst outcome)) = length (images st) + length files
  /\ (exists newImages,
        images (fst outcome) = images st ++ newImages
        /\ map img_file newImages = files)
  /\ uploadError (fst outcome) = None
  /\ (files <> [] -> imagesChanges (snd outcome) = [images (fst outcome)]).
Proof.
  intros Hacceptable Hfits Hread. cbv zeta.
  assert (Hvalid : Forall (fun file => validateFile file = None) files).
  { eapply Forall_impl; [|exact Hacceptable]. intros file. apply validateFile_None_iff. }
  destruct (accepted_all env files 0 Hvalid Hread) as [Hfiles Hnone].
  rewrite (handleFiles_within_capacity _ Hfits), Hnone.
  assert (Hlen : length (accepted env files 0) = length files)
    by (now rewrite <- Hfiles at 2; rewrite length_map).
  destruct (0 <? length (accepted env files 0)) eqn:Hsome;
    cbn [fst snd images imagesChanges uploadError].
  - rewrite length_app, Hlen. repeat split; trivial.
    exists (accepted env files 0). split; trivial.
  - apply Nat.ltb_ge in Hsome.
    assert (Hempty : files = []) by (destruct files; [reflexivity | simpl in *; lia]).
    rewrite Hempty. simpl. repeat split; try lia.
    + exists []. split; [now rewrite app_nil_r | reflexivity].
    + intros H. now contradiction H.
Qed.

End IntakeBatches.

Section IntakeExamples.
Import Upload IntakeSpec.

Lemma C3_failed_batch_adds_nothing_witness :
  let files := [png "a.png" 100; notes_txt] in
  let outcome := handleFiles App.maxImages reads_all files empty in
  images (fst outcome) = []
  /\ imagesChanges (snd outcome) = []
  /\ uploadError (fst outcome) = Some (lit "notes.txt is not a valid image file")
  /\ toasts (snd outcome) = [failure_toast 1].
Proof.
  cbv zeta.
  assert (Hinvalid : exists file, In file [png "a.png" 100; notes_txt]
                                  /\ validateFile file <> None).
  { exists notes_txt. split; [right; left; reflexivity | vm_compute; discriminate]. }
  destruct (C3_failed_batch_adds_nothing reads_all [png "a.png" 100; notes_txt] empty Hinvalid)
    as (Hsame & Hquiet & Hfirst).
  destruct Hfirst as (_ & Herror & Htoast); [vm_compute; discriminate|].
  repeat split; assumption.
Defined.

(** C3 as stated fails.  Five files are offered to an empty component, the
    first of them a text file: the batch has a file that fails validation,
    yet what is surfaced is the capacity-exceeded reason, not the reason of
    that file, and no notification is shown. *)
Lemma C3_counterexample :
  let files := [notes_txt; png "a.png" 100; png "b.png" 100; png "c.png" 100; png "d.png" 100] in
  let outcome := handleFiles App.maxImages reads_all files empty in
  validateFile notes_txt = Some (lit "notes.txt is not a valid image file")
  /\ hd_error (failure_reasons reads_all files) = Some (lit "notes.txt is not a valid image file")
  /\ uploadError (fst outcome) = Some (lit "Can only upload 4 more images")
  /\ uploadError (fst outcome) <> hd_error (failure_reasons reads_all files)
  /\ toasts (snd outcome) = [].
Proof.
  cbv zeta. repeat split; try (vm_compute; reflexivity). vm_compute. discriminate.
Qed.

Lemma C4_over_capacity_rejects_batch_witness :
  let files := [png "a.png" 100; png "b.png" 100; png "c.png" 100; png "d.png" 100;
                png "e.png" 100] in
  handleFiles App.maxImages reads_all files empty
  = ({| images := []; uploadError := Some (lit "Can only upload 4 more images") |}, no_effects).
Proof.
  cbv zeta.
  exact (C4_over_capacity_rejects_batch reads_all
           [png "a.png" 100; png "b.png" 100; png "c.png" 100; png "d.png" 100;
            png "e.png" 100] empty ltac:(vm_compute; reflexivity)).
Defined.

Lemma C5_valid_batch_accepted_witness :
  let files := [png "a.png" 100; png "b.png" ten_MiB] in
  length (images (fst (handleFiles App.maxImages reads_all files empty))) = 0 + 2.
Proof.
  cbv zeta.
  apply (C5_valid_batch_accepted reads_all [png "a.png" 100; png "b.png" ten_MiB] empty).
  - repeat constructor; apply validateFile_None_iff; vm_compute; reflexivity.
  - vm_compute. discriminate.
  - repeat constructor; discriminate.
Defined.

End IntakeExamples.

(** ** The endpoint *)

Section EndpointProperties.
Import Endpoint EndpointSpec.

Variable generateText : GenerateTextCall -> Settled jsstring.

(** C6.  A request whose query is absent or empty, or whose images are
    absent or empty, is answered with status 400 and an error body, and
    the provider is not called. *)
Theorem C6_bad_request_without_provider_call
        (query : option jsstring) (images : option (list ImageRef)) :
  query = None \/ query = Some [] \/ images = None \/ images = Some [] ->
  POST generateText (BodyObject query images) = (bad_request, []).
Proof.
  intros [Hq | [Hq | [Hi | Hi]]]; subst; unfold POST.
  - reflexivity.
  - destruct images; reflexivity.
  - destruct query; reflexivity.
  - destruct query as [query|]; [|reflexivity].
    cbn [length Nat.eqb]. now rewrite !orb_true_r.
Qed.

(** C7.  For a request with a query and at least one image, when the call
    of the provider throws, the response is a success: status 200 and the
    text of the fallback generator for the query and the number of images
    under [response].  It is the response that a provider answering with
    that very text would have caused. *)
Theorem C7_provider_failure_falls_back
        (query : jsstring) (images : list ImageRef) (apiError : Thrown) :
  query <> [] -> images <> [] ->
  generateText (provider_call query images) = Rejected apiError ->
  POST generateText (BodyObject (Some query) (Some images))
  = ({| status := 200;
        body := ResponseText (generateFallbackResponse query (length images)) |},
     [provider_call query images])
  /\ (forall answering : GenerateTextCall -> Settled jsstring,
        answering (provider_call query images)
        = Resolved (generateFallbackResponse query (length images)) ->
        fst (POST answering (BodyObject (Some query) (Some images)))
        = fst (POST generateText (BodyObject (Some query) (Some images)))).
Proof.
  intros Hquery Himages Hfails.
  assert (Hguard : (length query =? 0) || false || (length images =? 0) = false).
  { destruct query; [contradiction|]. destruct images; [contradiction|]. reflexivity. }
  unfold POST. rewrite Hguard, Hfails. split; [reflexivity|].
  intros answering Hanswer. now rewrite Hanswer.
Qed.

End EndpointProperties.

Lemma C6_bad_request_without_provider_call_witness :
  Endpoint.POST EndpointSpec.failing_provider
    (Endpoint.BodyObject (Some (lit "What colors?")) (Some []))
  = (EndpointSpec.bad_request, []).
Proof.
  apply (C6_bad_request_without_provider_call EndpointSpec.failing_provider
           (Some (lit "What colors?")) (Some [])).
  right; right; right; reflexivity.
Defined.

Lemma C7_provider_failure_falls_back_witness :
  Endpoint.POST EndpointSpec.failing_provider
    (Endpoint.BodyObject (Some (lit "What colors?")) (Some EndpointSpec.two_images))
  = ({| Endpoint.status := 200;
        Endpoint.body :=
          Endpoint.ResponseText
            (Endpoint.generateFallbackResponse (lit "What colors?") 2) |},
     [Endpoint.provider_call (lit "What colors?") EndpointSpec.two_images]).
Proof.
  apply (C7_provider_failure_falls_back EndpointSpec.failing_provider
           (lit "What colors?") EndpointSpec.two_images
           (ThrownError (lit "Incorrect API key provided"))).
  - discriminate.
  - discriminate.
  - reflexivity.
Defined.

(** ** Removal *)

Section Removal.
Import Upload RemovalSpec.

Variable id : jsstring.

Local Abbreviation others := (RemovalSpec.others id).

Lemma removeImage_images (st : State) :
  images (fst (removeImage id st)) = others (images st).
Proof. reflexivity. Qed.

Lemma others_absent (l : list UploadedImage) :
  occurrences id l = 0 -> others l = l.
Proof.
  unfold occurrences, RemovalSpec.others.
  induction l as [|img l IH]; simpl; [reflexivity|].
  destruct (jsstring_eqb (img_id img) id); simpl; [discriminate|].
  intros H. now rewrite IH.
Qed.

Lemma others_once (l : list UploadedImage) :
  occurrences id l = 1 ->
  exists before img after,
    l = before ++ img :: after /\ img_id img = id /\ others l = before ++ after.
Proof.
  induction l as [|x l IH]; [discriminate|].
  unfold occurrences, RemovalSpec.others in *. simpl.
  destruct (jsstring_eqb (img_id x) id) eqn:E; simpl.
  - intros H. injection H as H.
    exists [], x, l. apply jsstring_eqb_eq in E.
    repeat split; trivial. simpl. now apply others_absent.
  - intros H. destruct (IH H) as (before & img & after & Hl & Hid & Hothers).
    exists (x :: before), img, after. simpl. rewrite Hothers.
    repeat split; trivial. now rewrite Hl.
Qed.

Lemma others_idempotent (l : list UploadedImage) : others (others l) = others l.
Proof.
  unfold RemovalSpec.others.
  induction l as [|img l IH]; simpl; [reflexivity|].
  destruct (jsstring_eqb (img_id img) id) eqn:E; simpl; [exact IH|].
  now rewrite E, IH.
Qed.

Lemma others_length (l : list UploadedImage) : length (others l) <= length l.
Proof. apply filter_length_le. Qed.

Lemma others_Forall (P : UploadedImage -> Prop) (l : list UploadedImage) :
  Forall P l -> Forall P (others l).
Proof.
  intros H. apply Forall_forall. intros img Hin.
  apply filter_In in Hin as [Hin _]. revert img Hin. now apply Forall_forall.
Qed.

(** C9.  When the identifier occurs exactly once, removing it takes that
    one image out and leaves the images before it and after it as they
    were and in their order, so the count goes down by exactly 1.  When
    the identifier does not occur, the images are unchanged; and removing
    a second time changes nothing more. *)
Theorem C9_remove_image (st : State) :
  (occurrences id (images st) = 1 ->
     exists before img after,
       images st = before ++ img :: after
       /\ img_id img = id
       /\ images (fst (removeImage id st)) = before ++ after
       /\ length (images (fst (removeImage id st))) + 1 = length (images st))
  /\ (occurrences id (images st) = 0 ->
        images (fst (removeImage id st)) = images st)
  /\ images (fst (removeImage id (fst (removeImage id st))))
     = images (fst (removeImage id st)).
Proof.
  rewrite !removeImage_images. split; [|split].
  - intros Honce. destruct (others_once _ Honce) as (before & img & after & Hl & Hid & Ho).
    exists before, img, after. rewrite Ho, Hl. repeat split; trivial.
    rewrite !length_app. simpl. lia.
  - apply others_absent.
  - apply others_idempotent.
Qed.

End Removal.

Lemma C9_remove_image_witness :
  let st := RemovalSpec.holding [RemovalSpec.image "a"; RemovalSpec.image "b"; RemovalSpec.image "c"] in
  (exists before img after,
     Upload.images st = before ++ img :: after
     /\ img_id img = lit "b"
     /\ Upload.images (fst (Upload.removeImage (lit "b") st)) = before ++ after
     /\ length (Upload.images (fst (Upload.removeImage (lit "b") st))) + 1
        = length (Upload.images st))
  /\ Upload.images (fst (Upload.removeImage (lit "z") st)) = Upload.images st.
Proof.
  cbv zeta. split.
  - apply (proj1 (C9_remove_image (lit "b")
             (RemovalSpec.holding
                [RemovalSpec.image "a"; RemovalSpec.image "b"; RemovalSpec.image "c"]))).
    reflexivity.
  - apply (proj1 (proj2 (C9_remove_image (lit "z")
             (RemovalSpec.holding
                [RemovalSpec.image "a"; RemovalSpec.image "b"; RemovalSpec.image "c"])))).
    reflexivity.
Defined.

(** ** The bounds on the active images *)

Section Bounds.
Import BoundsSpec.

Lemma accepted_small (env : Upload.Env) (files : list File) (calls : nat) :
  Forall small (IntakeSpec.accepted env files calls).
Proof.
  eapply Forall_impl; [|apply accepted_valid].
  intros img Hvalid. apply validateFile_None_iff in Hvalid.
  destruct Hvalid as (_ & _ & Hsize). exact Hsize.
Qed.

Lemma accepted_length (env : Upload.Env) (files : list File) (calls : nat) :
  length (IntakeSpec.accepted env files calls) <= length files.
Proof. pose proof (accepted_failures_length env files calls). lia. Qed.

Lemma initial_invariant : invariant App.initial.
Proof. repeat split; simpl; [lia | constructor]. Qed.

Lemma intake_invariant (op : App.IntakeOp) (st : App.State) :
  invariant st -> invariant (App.intake op st).
Proof.
  intros [[Hlen Hsmall] Hsame]. unfold App.intake.
  destruct op as [env files | id | ]; cbn [App.run_upload].
  - destruct (Z_le_gt_dec (Z.of_nat (length files))
                (App.maxImages - Z.of_nat (length (Upload.images (App.upload st)))))
      as [Hfits|Hover].
    + rewrite (handleFiles_within_capacity env files (App.upload st) _ Hfits).
      destruct (IntakeSpec.failure_reasons env files) as [|first rest].
      * destruct (0 <? length (IntakeSpec.accepted env files 0)).
        -- repeat split; simpl.
           ++ rewrite length_app. pose proof (accepted_length env files 0).
              unfold App.maxImages in Hfits. lia.
           ++ apply Forall_app. split; [assumption | apply accepted_small].
        -- repeat split; simpl; assumption.
      * repeat split; simpl; assumption.
    + rewrite (handleFiles_over_capacity env files (App.upload st) _ Hover).
      repeat split; simpl; assumption.
  - repeat split; cbn [Upload.removeImage App.upload App.page Upload.images
                         Upload.imagesChanges fold_left Page.setImages Page.images].
    + etransitivity; [apply filter_length_le | exact Hlen].
    + now apply others_Forall.
  - repeat split; simpl; [lia | constructor].
Qed.

Lemma intake_all_invariant (ops : list App.IntakeOp) (st : App.State) :
  invariant st -> invariant (App.intake_all ops st).
Proof.
  revert st. unfold App.intake_all.
  induction ops as [|op ops IH]; intros st Hinv; simpl; [exact Hinv|].
  apply IH. now apply intake_invariant.
Qed.

(** C8.  From the empty set, after any sequence of batch submissions,
    removals and clears, the component holds at most 4 images and each of
    them is at most [10 * 1024 * 1024] bytes; the page holds the same
    images. *)
Theorem C8_active_set_bounded (ops : list App.IntakeOp) :
  let st := App.intake_all ops App.initial in
  length (Upload.images (App.upload st)) <= 4
  /\ Forall (fun img => (file_size (img_file img) <= 10 * 1024 * 1024)%N)
            (Upload.images (App.upload st))
  /\ Page.images (App.page st) = Upload.images (App.upload st).
Proof.
  cbv zeta.
  destruct (intake_all_invariant ops App.initial initial_invariant) as [[Hlen Hsmall] Hsame].
  repeat split; assumption.
Qed.

End Bounds.

(** ** A successful submission *)

Section Send.
Import Page SendSpec.

Variable env : Env.
Variable st : App.State.

(** C10.  When the query and the images pass validation and the request is
    answered with a text, [send] appends the user entry and then exactly one
    bot entry carrying that text, and empties the query input.  The images
    of the page and the state of the upload component are what they were. *)
Theorem C10_successful_send_keeps_images (aiResponse : jsstring) :
  validateQuery (query (App.page st)) = None ->
  validateImages (images (App.page st)) = None ->
  fetch env (analysis_request (query (App.page st)) (images (App.page st)))
  = FetchOk aiResponse ->
  let outcome := App.send env st in
  (exists userMessage botMessage,
     messages (App.page (fst outcome)) = messages (App.page st) ++ [userMessage; botMessage]
     /\ msg_type userMessage = user
     /\ msg_type botMessage = bot
     /\ msg_content botMessage = aiResponse)
  /\ bot_entries (messages (App.page (fst outcome)))
     = bot_entries (messages (App.page st)) + 1
  /\ query (App.page (fst outcome)) = []
  /\ images (App.page (fst outcome)) = images (App.page st)
  /\ App.upload (fst outcome) = App.upload st
  /\ requests (snd outcome)
     = [analysis_request (query (App.page st)) (images (App.page st))].
Proof.
  intros Hquery Himages Hfetch. cbv zeta.
  unfold App.send, handleSendQuery. rewrite Hquery, Himages, Hfetch.
  cbn [fst snd App.page App.upload messages query images requests
       setIsProcessing setQuery appendMessage setError].
  split; [|split; [|repeat split]].
  - eexists; eexists. split; [now rewrite <- app_assoc|].
    repeat split.
  - unfold bot_entries. rewrite !filter_app, !length_app. simpl. lia.
Qed.

End Send.

Lemma C10_successful_send_keeps_images_witness :
  let outcome := App.send QuerySpec.answering SendSpec.ready in
  SendSpec.bot_entries (Page.messages (App.page (fst outcome))) = 0 + 1
  /\ Page.query (App.page (fst outcome)) = []
  /\ Page.images (App.page (fst outcome)) = [QuerySpec.one_image]
  /\ App.upload (fst outcome) = App.upload SendSpec.ready.
Proof.
  cbv zeta.
  destruct (C10_successful_send_keeps_images QuerySpec.answering SendSpec.ready
              (lit "Image 1: a red mug."))
    as (_ & Hbot & Hquery & Himages & Hupload & _);
    [vm_compute; reflexivity | vm_compute; reflexivity | reflexivity |].
  repeat split; assumption.
Defined.

(** * More of the endpoint *)

Section EndpointOutcome.
Import Endpoint.

Variable generateText : GenerateTextCall -> Settled jsstring.

(** What [POST] does with a body that has a query and images. *)
Lemma POST_well_formed (query : jsstring) (images : list ImageRef) :
  query <> [] -> images <> [] ->
  exists text,
    POST generateText (BodyObject (Some query) (Some images))
    = ({| status := 200; body := ResponseText text |}, [provider_call query images])
    /\ (generateText (provider_call query images) = Resolved text
        \/ (exists apiError, generateText (provider_call query images) = Rejected apiError)
           /\ text = generateFallbackResponse query (length images)).
Proof.
  intros Hq Hi. unfold POST.
  assert (Hguard : (length query =? 0) || false || (length images =? 0) = false).
  { destruct query; [contradiction|]. destruct images; [contradiction|]. reflexivity. }
  rewrite Hguard.
  destruct (generateText (provider_call query images)) as [text|apiError].
  - exists text. split; [reflexivity | now left].
  - eexists. split; [reflexivity|]. right. split; [now exists apiError | reflexivity].
Qed.


End EndpointOutcome.

Section ProviderCall.
Import Endpoint.

Variable query : jsstring.
Variable images : list ImageRef.

(** X2.  The call of the provider carries the data URLs of the images,
    one per image and in the order of the request; its text names the
    number of images and quotes the query as it came; and nothing of it
    depends on the names of the images. *)
Theorem X2_provider_call_contents :
  call_images (provider_call query images) = map ref_url images
  /\ length (call_images (provider_call query images)) = length images
  /\ includes (call_text (provider_call query images))
              (lit "these " ++ nat_to_string (length images) ++ lit " images") = true
  /\ includes (call_text (provider_call query images)) (quote ++ query ++ quote) = true
  /\ (forall renamed : list ImageRef,
        map ref_url renamed = map ref_url images ->
        provider_call query renamed = provider_call query images).
Proof.
  split; [reflexivity|]. split; [apply length_map|].
  unfold provider_call, prompt_text; cbn [call_text join].
  split; [|split].
  - apply includes_substring.
    exists (lit "Please analyze "). eexists.
    change (lit "Please analyze these ") with (lit "Please analyze " ++ lit "these ").
    change (lit " images and answer this question: ")
      with (lit " images" ++ lit " and answer this question: ").
    repeat rewrite <- app_assoc. reflexivity.
  - apply includes_substring.
    exists (lit "Please analyze these " ++ nat_to_string (length images)
              ++ lit " images and answer this question: ").
    eexists. repeat rewrite <- app_assoc. reflexivity.
  - intros renamed Hurls.
    assert (Hlen : length renamed = length images).
    { rewrite <- (length_map ref_url renamed), Hurls. apply length_map. }
    now rewrite Hurls, Hlen.
Qed.

End ProviderCall.

(** * More of the fallback generator *)

Section FallbackKeywords.
Import Endpoint.

Lemma toLowerCase_app (s t : jsstring) : toLowerCase (s ++ t) = toLowerCase s ++ toLowerCase t.
Proof. apply flat_map_app. Qed.

(** The text depends on the query through its topic only. *)
Lemma fallback_by_topic (q1 q2 : jsstring) (imageCount : nat) :
  FallbackSpec.topic q1 = FallbackSpec.topic q2 ->
  generateFallbackResponse q1 imageCount = generateFallbackResponse q2 imageCount.
Proof.
  intros Htopic. unfold generateFallbackResponse.
  rewrite !fallback_responses_lines. unfold FallbackSpec.line. now rewrite Htopic.
Qed.

(** X3.  A query that has [count] or [how many] in it, in any mix of
    upper and lower case, at any place (inside a longer word too, and
    whatever other keywords are there), gets the count answer on every
    line. *)
Theorem X3_count_keyword_anywhere (before word rest : jsstring) (i : nat) :
  toLowerCase word = lit "count" \/ toLowerCase word = lit "how many" ->
  fallback_iteration (before ++ word ++ rest) i
  = Terms.label i ++ lit "I can see " ++ number_to_string (nth (i mod 5) counts 0%Z)
      ++ lit " items in this image.".
Proof.
  intros Hword. rewrite fallback_iteration_line.
  unfold FallbackSpec.line, Terms.label. rewrite <- !app_assoc. do 3 f_equal.
  assert (Htopic : FallbackSpec.topic (before ++ word ++ rest) = FallbackSpec.CountTopic).
  { unfold FallbackSpec.topic. cbv zeta.
    rewrite !toLowerCase_app.
    assert (Hfound : includes (toLowerCase before ++ toLowerCase word ++ toLowerCase rest)
                              (lit "count")
                     || includes (toLowerCase before ++ toLowerCase word ++ toLowerCase rest)
                                 (lit "how many") = true).
    { apply orb_true_iff.
      destruct Hword as [-> | ->]; [left | right];
        apply includes_substring; now exists (toLowerCase before), (toLowerCase rest). }
    now rewrite Hfound. }
  now rewrite Htopic.
Qed.

(** X4.  For a given number of images the generator has four texts, and
    the query only chooses among them: nothing of the query is echoed. *)
Theorem X4_four_fallback_texts (query : jsstring) (imageCount : nat) :
  generateFallbackResponse query imageCount = generateFallbackResponse (lit "count") imageCount
  \/ generateFallbackResponse query imageCount = generateFallbackResponse (lit "color") imageCount
  \/ generateFallbackResponse query imageCount = generateFallbackResponse (lit "text") imageCount
  \/ generateFallbackResponse query imageCount = generateFallbackResponse [] imageCount.
Proof.
  destruct (FallbackSpec.topic query) eqn:Htopic.
  - left. apply fallback_by_topic. now rewrite Htopic.
  - right; left. apply fallback_by_topic. now rewrite Htopic.
  - right; right; left. apply fallback_by_topic. now rewrite Htopic.
  - right; right; right. apply fallback_by_topic. now rewrite Htopic.
Qed.

(** X5.  The answers cycle with period 5: the line of image [i + 5] is the
    line of image [i] under another label. *)
Theorem X5_fallback_period (query : jsstring) (i : nat) :
  exists answer,
    fallback_iteration query i = Terms.label i ++ answer
    /\ fallback_iteration query (i + 5) = Terms.label (i + 5) ++ answer.
Proof.
  exists (FallbackSpec.content (FallbackSpec.topic query) i).
  rewrite !fallback_iteration_line. unfold FallbackSpec.line, Terms.label.
  rewrite <- !app_assoc. split; [reflexivity|].
  do 3 f_equal. unfold FallbackSpec.content.
  assert (Hmod : (i + 5) mod 5 = i mod 5).
  { replace (i + 5) with (i + 1 * 5) by lia. apply Nat.Div0.mod_add. }
  now rewrite Hmod.
Qed.

End FallbackKeywords.

Lemma X3_count_keyword_anywhere_witness :
  Endpoint.fallback_iteration (lit "Colors on my ac" ++ lit "COUNT" ++ lit " page?") 2
  = lit "Image 2: I can see 2 items in this image.".
Proof.
  apply (X3_count_keyword_anywhere (lit "Colors on my ac") (lit "COUNT") (lit " page?") 2).
  left. reflexivity.
Defined.

(** * More of the page *)

Section ImageValidation.
Import Page Terms.

Lemma no_oversized_iff (l : list UploadedImage) :
  (0 <? length (filter oversized l)) = false
  <-> Forall (fun img => (file_size (img_file img) <= ten_MiB)%N) l.
Proof.
  induction l as [|img l IH]; simpl.
  - split; [constructor | reflexivity].
  - unfold oversized at 1. destruct (ten_MiB <? file_size (img_file img))%N eqn:E; simpl.
    + apply N.ltb_lt in E. split; [discriminate|].
      intros H. inversion H; subst. lia.
    + apply N.ltb_ge in E. rewrite IH. split.
      * intros H. now constructor.
      * intros H. now inversion H.
Qed.

(** [validateImages] by cases, in the order of its tests. *)
Lemma validateImages_cases (l : list UploadedImage) :
  validateImages l
  = if length l =? 0 then Some NoImages
    else if 4 <? length l then Some TooManyImages
    else if 0 <? length (filter oversized l) then Some (OversizedImages l)
    else None.
Proof. reflexivity. Qed.

Lemma validateImages_passes (l : list UploadedImage) :
  validateImages l = None
  <-> 1 <= length l <= 4 /\ Forall (fun img => (file_size (img_file img) <= ten_MiB)%N) l.
Proof.
  rewrite validateImages_cases.
  destruct (length l =? 0) eqn:E0.
  { apply Nat.eqb_eq in E0. split; [discriminate | intros [H _]; lia]. }
  apply Nat.eqb_neq in E0.
  destruct (4 <? length l) eqn:E4.
  { apply Nat.ltb_lt in E4. split; [discriminate | intros [H _]; lia]. }
  apply Nat.ltb_ge in E4.
  destruct (0 <? length (filter oversized l)) eqn:Eo.
  - split; [discriminate|]. intros [_ H]. apply no_oversized_iff in H. congruence.
  - apply no_oversized_iff in Eo. split; [intros _; split; [lia | exact Eo] | reflexivity].
Qed.

(** X6.  [validateImages] lets a list pass exactly when it has between 1
    and 4 images and none of them is over 10 MiB. *)
Theorem X6_validateImages_passes (l : list UploadedImage) :
  validateImages l = None
  <-> 1 <= length l <= 4
      /\ Forall (fun img => (file_size (img_file img) <= 10 * 1024 * 1024)%N) l.
Proof. apply validateImages_passes. Qed.

(** X7.  The errors of [validateImages], in the order they are tested: no
    image; more than 4 images, whatever their sizes; otherwise, when some
    image is over 10 MiB, a message that lists the names of exactly the
    oversized images, in the order of the list. *)
Theorem X7_validateImages_errors (l : list UploadedImage) :
  (l = [] -> validateImages l = Some NoImages)
  /\ (4 < length l -> validateImages l = Some TooManyImages)
  /\ (1 <= length l <= 4 ->
      (exists img, In img l /\ (10 * 1024 * 1024 < file_size (img_file img))%N) ->
      validateImages l
      = Some (lit "Image(s) too large: "
                ++ join (lit ", ") (map img_name (filter oversized l))
                ++ lit ". Maximum size is 10MB per image.")
      /\ forall img, In img (filter oversized l)
                     <-> In img l /\ (10 * 1024 * 1024 < file_size (img_file img))%N).
Proof.
  rewrite validateImages_cases. split; [|split].
  - intros ->. reflexivity.
  - intros Hmany.
    destruct (length l =? 0) eqn:E0; [apply Nat.eqb_eq in E0; lia|].
    apply Nat.ltb_lt in Hmany. now rewrite Hmany.
  - intros [Hlo Hhi] (big & Hin & Hbig).
    assert (Hfilter : forall img, In img (filter oversized l)
                                  <-> In img l /\ (ten_MiB < file_size (img_file img))%N).
    { intros img. rewrite filter_In. unfold oversized. now rewrite N.ltb_lt. }
    split; [|exact Hfilter].
    destruct (length l =? 0) eqn:E0; [apply Nat.eqb_eq in E0; lia|].
    destruct (4 <? length l) eqn:E4; [apply Nat.ltb_lt in E4; lia|].
    unfold OversizedImages.
    destruct (filter oversized l) as [|first others] eqn:Ef.
    + exfalso. apply (Hfilter big). split; assumption.
    + reflexivity.
Qed.

End ImageValidation.

Lemma X7_validateImages_errors_witness :
  let big := {| img_id := lit "b"; img_file := IntakeSpec.png "big.png" 10485761;
                img_url := lit "data:"; img_name := lit "big.png" |} in
  Page.validateImages [QuerySpec.one_image; big]
  = Some (lit "Image(s) too large: big.png. Maximum size is 10MB per image.").
Proof.
  cbv zeta.
  refine (proj1 (proj2 (proj2 (X7_validateImages_errors _)) _ _)).
  - simpl. lia.
  - eexists. split; [right; left; reflexivity | vm_compute; reflexivity].
Defined.

Section SendOutcomes.
Import Page.

Variable env : Env.
Variable st : State.

Local Abbreviation userMessage := (Terms.userMessage env st).

(** X8.  When the query passes and the images do not, [send] stops there:
    the message of [validateImages] becomes the inline error, the
    transcript, the query and the pending flag are as before, no request
    is sent and no toast is shown. *)
Theorem X8_send_stops_on_image_error (message : jsstring) :
  validateQuery (query st) = None ->
  validateImages (images st) = Some message ->
  handleSendQuery env st = (setError (Some message) st, no_effects).
Proof.
  intros Hquery Himages. unfold handleSendQuery. now rewrite Hquery, Himages.
Qed.

(** X9.  When both validations pass, [send] sends exactly one request,
    with the query as typed and the URL and name of every image in order,
    and appends exactly two entries: the user entry, holding the query and
    the images of that moment, then one reply, of kind bot or error and
    without images.  Whatever the outcome of the request, the pending flag
    is clear at the end, no inline error is left, one toast is shown and
    the images are untouched. *)
Theorem X9_validated_send :
  validateQuery (query st) = None ->
  validateImages (images st) = None ->
  let outcome := handleSendQuery env st in
  requests (snd outcome) = [analysis_request (query st) (images st)]
  /\ req_query (analysis_request (query st) (images st)) = query st
  /\ map Endpoint.ref_url (req_images (analysis_request (query st) (images st)))
     = map img_url (images st)
  /\ map Endpoint.ref_name (req_images (analysis_request (query st) (images st)))
     = map img_name (images st)
  /\ (exists reply,
        messages (fst outcome) = messages st ++ [userMessage; reply]
        /\ (msg_type reply = bot \/ msg_type reply = error_type)
        /\ msg_images reply = None)
  /\ isProcessing (fst outcome) = false
  /\ error (fst outcome) = None
  /\ length (toasts (snd outcome)) = 1
  /\ images (fst outcome) = images st.
Proof.
  intros Hquery Himages. cbv zeta.
  unfold handleSendQuery. rewrite Hquery, Himages.
  split; [|split; [|split; [|split]]].
  - destruct (fetch env _); reflexivity.
  - reflexivity.
  - unfold analysis_request; cbn [req_images]. rewrite map_map. reflexivity.
  - unfold analysis_request; cbn [req_images]. rewrite map_map. reflexivity.
  - destruct (fetch env _);
      cbn [fst snd send_failed messages isProcessing error toasts images
           setIsProcessing setQuery appendMessage setError length];
      (split; [eexists; split; [now rewrite <- app_assoc | split; [auto | reflexivity]] |]);
      repeat split.
Qed.

(** X10.  When both validations pass and the request fails, by a response
    that is not ok or by an exception, the reply is an error entry and no
    bot entry is added; its text is the [error] of the response body, or
    the message of the exception, or a fixed text when there is none.  The
    query stays in the input, and the toast is the destructive one. *)
Theorem X10_failed_request (reason : jsstring) :
  validateQuery (query st) = None ->
  validateImages (images st) = None ->
  (exists errorData,
     fetch env (analysis_request (query st) (images st)) = FetchNotOk errorData
     /\ reason = or_default errorData (lit "Failed to analyze images"))
  \/ (exists err,
        fetch env (analysis_request (query st) (images st)) = FetchThrows err
        /\ reason = message_or err (lit "An unexpected error occurred. Please try again.")) ->
  let outcome := handleSendQuery env st in
  messages (fst outcome)
  = messages st ++ [userMessage;
                    {| msg_id := random_id env 1; msg_type := error_type;
                       msg_content := reason; msg_images := None;
                       msg_timestamp := now env 1 |}]
  /\ SendSpec.bot_entries (messages (fst outcome)) = SendSpec.bot_entries (messages st)
  /\ query (fst outcome) = query st
  /\ map toast_destructive (toasts (snd outcome)) = [true].
Proof.
  intros Hquery Himages Hfails. cbv zeta.
  unfold handleSendQuery. rewrite Hquery, Himages.
  destruct Hfails as [(errorData & -> & ->) | (err & -> & ->)];
    cbn [fst snd send_failed messages query toasts message_or
         setIsProcessing setQuery appendMessage setError map toast_destructive];
    rewrite <- app_assoc; repeat split;
    unfold SendSpec.bot_entries; rewrite !filter_app, !length_app; simpl; lia.
Qed.

(** X11.  A click on the Send button, which is enabled only when the
    query is not blank, there is an image and nothing is pending, never
    ends in the empty-query or the no-image error. *)
Theorem X11_enabled_button_errors :
  PageUI.sendDisabled st = false ->
  error (fst (handleSendQuery env st)) <> Some QuerySpec.EmptyQuery
  /\ error (fst (handleSendQuery env st)) <> Some Terms.NoImages.
Proof.
  unfold PageUI.sendDisabled. intros Henabled.
  apply orb_false_iff in Henabled as [Henabled _].
  apply orb_false_iff in Henabled as [Hblank Hnone].
  unfold handleSendQuery, validateQuery. rewrite Hblank.
  destruct (length (query st) <? 3);
    [split; intros H; vm_compute in H; discriminate|].
  destruct (500 <? length (query st));
    [split; intros H; vm_compute in H; discriminate|].
  rewrite validateImages_cases, Hnone.
  destruct (4 <? length (images st));
    [split; intros H; vm_compute in H; discriminate|].
  destruct (0 <? length (filter Terms.oversized (images st)));
    [split; intros H; cbn in H; discriminate|].
  destruct (fetch env _); split; intros H; cbn in H; discriminate.
Qed.

End SendOutcomes.

Lemma X8_send_stops_on_image_error_witness :
  let st := {| Page.images := []; Page.query := lit "What colors?"; Page.messages := [];
               Page.isProcessing := false; Page.error := None |} in
  Page.handleSendQuery QuerySpec.answering st
  = (Page.setError (Some Terms.NoImages) st, Page.no_effects).
Proof.
  cbv zeta.
  apply (X8_send_stops_on_image_error QuerySpec.answering
           {| Page.images := []; Page.query := lit "What colors?"; Page.messages := [];
              Page.isProcessing := false; Page.error := None |} Terms.NoImages).
  - vm_compute. reflexivity.
  - reflexivity.
Defined.

Lemma X9_validated_send_witness :
  let st := QuerySpec.typed (lit "What colors?") in
  Page.requests (snd (Page.handleSendQuery QuerySpec.answering st))
  = [Page.analysis_request (lit "What colors?") [QuerySpec.one_image]]
  /\ Page.isProcessing (fst (Page.handleSendQuery QuerySpec.answering st)) = false.
Proof.
  cbv zeta.
  destruct (X9_validated_send QuerySpec.answering (QuerySpec.typed (lit "What colors?")))
    as (Hrequest & _ & _ & _ & _ & Hflag & _);
    [vm_compute; reflexivity | vm_compute; reflexivity |].
  split; assumption.
Defined.

Lemma X10_failed_request_witness :
  let refusing := {| Page.random_id := fun k => lit "id" ++ nat_to_string k;
                     Page.now := fun k => N.of_nat k;
                     Page.fetch := fun _ => Page.FetchNotOk (Some []) |} in
  let st := QuerySpec.typed (lit "What colors?") in
  Page.query (fst (Page.handleSendQuery refusing st)) = lit "What colors?"
  /\ map Page.msg_content (Page.messages (fst (Page.handleSendQuery refusing st)))
     = [lit "What colors?"; lit "Failed to analyze images"].
Proof.
  cbv zeta.
  destruct (X10_failed_request
              {| Page.random_id := fun k => lit "id" ++ nat_to_string k;
                 Page.now := fun k => N.of_nat k;
                 Page.fetch := fun _ => Page.FetchNotOk (Some []) |}
              (QuerySpec.typed (lit "What colors?")) (lit "Failed to analyze images"))
    as (Hmessages & _ & Hquery & _).
  - vm_compute. reflexivity.
  - vm_compute. reflexivity.
  - left. exists (Some []). split; reflexivity.
  - split; [exact Hquery|]. rewrite Hmessages. reflexivity.
Defined.

Lemma X11_enabled_button_errors_witness :
  Page.error (fst (Page.handleSendQuery QuerySpec.answering (QuerySpec.typed (lit "ab"))))
  <> Some QuerySpec.EmptyQuery.
Proof.
  apply (X11_enabled_button_errors QuerySpec.answering (QuerySpec.typed (lit "ab"))).
  vm_compute. reflexivity.
Defined.

(** * More of the upload component *)

Section FileValidation.
Import Upload Terms.

Lemma supported_are_images (type : jsstring) :
  In type supportedTypes -> startsWith type (lit "image/") = true.
Proof.
  intros Hin. unfold supportedTypes in Hin. simpl in Hin.
  repeat (destruct Hin as [<- | Hin]; [reflexivity|]). contradiction.
Qed.

(** X12.  [validateFile] accepts exactly the files whose type is one of
    the five listed and whose size is at most 10 MiB; its first test,
    that the type starts with [image/], refuses nothing more. *)
Theorem X12_validateFile_accepts (file : File) :
  validateFile file = None
  <-> In (file_type file)
         [lit "image/jpeg"; lit "image/jpg"; lit "image/png"; lit "image/gif"; lit "image/webp"]
      /\ (file_size file <= 10 * 1024 * 1024)%N.
Proof.
  rewrite validateFile_None_iff. unfold IntakeSpec.acceptable. split.
  - intros (_ & Hin & Hsize). split; assumption.
  - intros (Hin & Hsize). split; [now apply supported_are_images | split; assumption].
Qed.

(** X13.  The errors of [validateFile], in the order they are tested: a
    type that does not start with [image/] is not an image, whatever the
    size; an image over 10 MiB is too large, whatever its format; an image
    that fits and is of no listed format is unsupported. *)
Theorem X13_validateFile_errors (file : File) :
  (startsWith (file_type file) (lit "image/") = false ->
     validateFile file = Some (NotAnImage file))
  /\ (startsWith (file_type file) (lit "image/") = true ->
      (10 * 1024 * 1024 < file_size file)%N ->
      validateFile file = Some (TooLarge file))
  /\ (startsWith (file_type file) (lit "image/") = true ->
      (file_size file <= 10 * 1024 * 1024)%N ->
      ~ In (file_type file) supportedTypes ->
      validateFile file = Some (Unsupported file)).
Proof.
  unfold validateFile. split; [|split].
  - intros ->. reflexivity.
  - intros -> Hbig. apply N.ltb_lt in Hbig. cbn [negb].
    unfold ten_MiB. now rewrite Hbig.
  - intros -> Hfits Hnot. cbn [negb].
    assert (Hsize : (ten_MiB <? file_size file)%N = false) by (apply N.ltb_ge; exact Hfits).
    rewrite Hsize.
    destruct (existsb (jsstring_eqb (file_type file)) supportedTypes) eqn:E.
    + apply supported_In in E. contradiction.
    + reflexivity.
Qed.

End FileValidation.

Lemma X13_validateFile_errors_witness :
  Upload.validateFile IntakeSpec.notes_txt = Some (lit "notes.txt is not a valid image file")
  /\ Upload.validateFile {| file_name := lit "huge.bmp"; file_type := lit "image/bmp";
                            file_size := 11010048 |}
     = Some (lit "huge.bmp is too large (10.5MB). Maximum size is 10MB")
  /\ Upload.validateFile {| file_name := lit "scan.bmp"; file_type := lit "image/bmp";
                            file_size := 4096 |}
     = Some (lit "scan.bmp format not supported. Please use JPG, PNG, GIF, or WebP").
Proof.
  split; [|split].
  - apply (proj1 (X13_validateFile_errors IntakeSpec.notes_txt)). reflexivity.
  - apply (proj1 (proj2 (X13_validateFile_errors
             {| file_name := lit "huge.bmp"; file_type := lit "image/bmp";
                file_size := 11010048 |}))); reflexivity.
  - apply (proj2 (proj2 (X13_validateFile_errors
             {| file_name := lit "scan.bmp"; file_type := lit "image/bmp";
                file_size := 4096 |}))).
    + reflexivity.
    + vm_compute. discriminate.
    + vm_compute. intros H. repeat (destruct H as [H | H]; [discriminate|]). exact H.
Defined.

Section SubmitShape.
Import Upload IntakeSpec Terms.

Variable env : Env.

(** What an accepted image is made of. *)
Lemma accepted_fields (files : list File) (calls : nat) :
  Forall (fun img => In (img_file img) files
                     /\ validateFile (img_file img) = None
                     /\ img_name img = file_name (img_file img)
                     /\ readAsDataURL env (img_file img) = Some (img_url img))
         (accepted env files calls).
Proof.
  revert calls; induction files as [|file rest IH]; intros calls; simpl; [constructor|].
  assert (Hrest : forall k, Forall (fun img => (file = img_file img \/ In (img_file img) rest)
                     /\ validateFile (img_file img) = None
                     /\ img_name img = file_name (img_file img)
                     /\ readAsDataURL env (img_file img) = Some (img_url img))
                    (accepted env rest k)).
  { intros k. eapply Forall_impl; [|apply (IH k)]. intros img (H1 & H2). split; auto. }
  destruct (validateFile file) eqn:Hvalid; [apply Hrest|].
  destruct (readAsDataURL env file) eqn:Hread; [|apply Hrest].
  constructor; [|apply Hrest]. simpl. auto.
Qed.

(** With every file valid, the failures of a batch are its unreadable
    files. *)
Lemma failure_reasons_unreadable (files : list File) :
  Forall (fun file => validateFile file = None) files ->
  failure_reasons env files
  = map (fun file => lit "Failed to process " ++ file_name file)
        (filter (unreadable env) files).
Proof.
  induction 1 as [|file rest Hvalid _ IH]; simpl; [reflexivity|].
  unfold failure_reason, unreadable at 1. rewrite Hvalid.
  destruct (readAsDataURL env file); simpl; now rewrite IH.
Qed.

Lemma hd_error_map_filter {A B} (g : A -> B) (p : A -> bool) (l : list A) :
  hd_error (map g (filter p l)) = option_map g (find p l).
Proof.
  induction l as [|x l IH]; simpl; [reflexivity|].
  destruct (p x); [reflexivity | exact IH].
Qed.

Variable files : list File.
Variable st : State.

(** X14.  Whatever the batch, [handleFiles] keeps the images held, in
    their order, and adds the new ones after them.  The page is told
    exactly when something was added, and is given the new list.  An
    image that was added holds a file of the batch that passed
    validation, the name of that file and the data URL read from it. *)
Theorem X14_submit_appends (maxImages : Z) :
  let outcome := handleFiles maxImages env files st in
  exists added,
    images (fst outcome) = images st ++ added
    /\ length added <= length files
    /\ (added = [] /\ imagesChanges (snd outcome) = []
        \/ added <> [] /\ imagesChanges (snd outcome) = [images (fst outcome)]
           /\ uploadError (fst outcome) = None)
    /\ Forall (fun img => In (img_file img) files
                          /\ validateFile (img_file img) = None
                          /\ img_name img = file_name (img_file img)
                          /\ readAsDataURL env (img_file img) = Some (img_url img))
              added.
Proof.
  cbv zeta.
  destruct (Z_le_gt_dec (Z.of_nat (length files))
                        (maxImages - Z.of_nat (length (images st)))) as [Hfits|Hover].
  - rewrite (handleFiles_within_capacity env files st _ Hfits).
    destruct (failure_reasons env files) as [|first others].
    + destruct (0 <? length (accepted env files 0)) eqn:Hsome.
      * exists (accepted env files 0). cbn [fst snd images imagesChanges uploadError].
        split; [reflexivity|]. split; [apply accepted_length|].
        split; [|apply accepted_fields].
        right. split; [|split; reflexivity].
        intros Hnil. rewrite Hnil in Hsome. discriminate.
      * exists []. cbn [fst snd images imagesChanges no_effects].
        rewrite app_nil_r. repeat split; try (simpl; lia); auto.
    + exists []. cbn [fst snd images imagesChanges].
      rewrite app_nil_r. repeat split; try (simpl; lia); auto.
  - rewrite (handleFiles_over_capacity env files st _ Hover).
    exists []. cbn [fst snd images imagesChanges no_effects].
    rewrite app_nil_r. repeat split; try (simpl; lia); auto.
Qed.

(** X15.  A batch that fits and whose files are all valid is still
    refused as a whole when one of them cannot be read: no image is
    added, the page is not told, the reason surfaced names the first
    unreadable file, and the notification counts the unreadable files. *)
Theorem X15_unreadable_file_fails_batch :
  Forall (fun file => validateFile file = None) files ->
  (Z.of_nat (length files) <= App.maxImages - Z.of_nat (length (images st)))%Z ->
  (exists file, In file files /\ readAsDataURL env file = None) ->
  let outcome := handleFiles App.maxImages env files st in
  images (fst outcome) = images st
  /\ imagesChanges (snd outcome) = []
  /\ uploadError (fst outcome)
     = option_map (fun file => lit "Failed to process " ++ file_name file)
                  (find (unreadable env) files)
  /\ find (unreadable env) files <> None
  /\ toasts (snd outcome) = [failure_toast (length (filter (unreadable env) files))].
Proof.
  intros Hvalid Hfits (bad & Hin & Hbad). cbv zeta.
  rewrite (handleFiles_within_capacity env files st _ Hfits).
  rewrite (failure_reasons_unreadable files Hvalid).
  assert (Hsome : In bad (filter (unreadable env) files)).
  { apply filter_In. split; [exact Hin|]. unfold unreadable. now rewrite Hbad. }
  assert (Hfind : find (unreadable env) files <> None).
  { intros Hnone. apply (find_none _ _ Hnone) in Hin.
    unfold unreadable in Hin. rewrite Hbad in Hin. discriminate. }
  rewrite <- (hd_error_map_filter (fun file => lit "Failed to process " ++ file_name file)).
  destruct (filter (unreadable env) files) as [|first others]; [contradiction|].
  cbn [map fst snd images imagesChanges uploadError toasts hd_error].
  repeat split; try assumption. cbn [length]. now rewrite length_map.
Qed.

(** X16.  An empty batch, offered while the images held are within the
    maximum, changes no image and tells no one; it only clears the
    error shown. *)
Theorem X16_empty_batch :
  (Z.of_nat (length (images st)) <= App.maxImages)%Z ->
  handleFiles App.maxImages env [] st
  = ({| images := images st; uploadError := None |}, no_effects).
Proof.
  intros Hheld.
  assert (Hfits : (Z.of_nat (length (@nil File)) <= App.maxImages - Z.of_nat (length (images st)))%Z)
    by (cbn [length Z.of_nat]; lia).
  now rewrite (handleFiles_within_capacity env [] st App.maxImages Hfits).
Qed.

End SubmitShape.

Lemma X15_unreadable_file_fails_batch_witness :
  let files := [IntakeSpec.png "a.png" 100; IntakeSpec.png "b.png" 100] in
  let outcome := Upload.handleFiles App.maxImages (Terms.reads_all_but "b.png") files
                   IntakeSpec.empty in
  Upload.images (fst outcome) = []
  /\ Upload.uploadError (fst outcome) = Some (lit "Failed to process b.png").
Proof.
  cbv zeta.
  destruct (X15_unreadable_file_fails_batch (Terms.reads_all_but "b.png")
              [IntakeSpec.png "a.png" 100; IntakeSpec.png "b.png" 100] IntakeSpec.empty)
    as (Himages & _ & Herror & _).
  - repeat constructor.
  - vm_compute. discriminate.
  - exists (IntakeSpec.png "b.png" 100). split; [right; left; reflexivity | reflexivity].
  - split; [exact Himages | rewrite Herror; reflexivity].
Defined.

Lemma X16_empty_batch_witness :
  let st := {| Upload.images := []; Upload.uploadError := Some (lit "Can only upload 4 more images") |} in
  Upload.handleFiles App.maxImages IntakeSpec.reads_all [] st
  = ({| Upload.images := []; Upload.uploadError := None |}, Upload.no_effects).
Proof.
  cbv zeta.
  apply (X16_empty_batch IntakeSpec.reads_all
           {| Upload.images := [];
              Upload.uploadError := Some (lit "Can only upload 4 more images") |}).
  vm_compute. discriminate.
Defined.

Section RemovalMore.
Import Upload RemovalSpec.

Variable id : jsstring.

Lemma others_In (l : list UploadedImage) (img : UploadedImage) :
  In img (others id l) <-> In img l /\ img_id img <> id.
Proof.
  unfold others. rewrite filter_In.
  destruct (jsstring_eqb (img_id img) id) eqn:E.
  - apply jsstring_eqb_eq in E. split; [intros [_ H]; discriminate | intros [_ H]; contradiction].
  - apply jsstring_eqb_neq in E. split; intros [H _]; split; auto.
Qed.

Lemma others_count (l : list UploadedImage) :
  length (others id l) + occurrences id l = length l.
Proof.
  unfold others, occurrences.
  induction l as [|img l IH]; simpl; [reflexivity|].
  destruct (jsstring_eqb (img_id img) id); simpl; lia.
Qed.

Lemma others_gone (l : list UploadedImage) : occurrences id (others id l) = 0.
Proof.
  unfold others, occurrences.
  induction l as [|img l IH]; simpl; [reflexivity|].
  destruct (jsstring_eqb (img_id img) id) eqn:E; simpl; [exact IH|].
  now rewrite E.
Qed.

(** X17.  [removeImage] takes out every image that carries the
    identifier, however many there are, and keeps every other image: the
    count goes down by the number of occurrences and the identifier is
    gone.  It also clears the error shown and gives the page the new
    list, even when nothing was removed. *)
Theorem X17_remove_all_occurrences (st : State) :
  let outcome := removeImage id st in
  (forall img, In img (images (fst outcome)) <-> In img (images st) /\ img_id img <> id)
  /\ length (images (fst outcome)) + occurrences id (images st) = length (images st)
  /\ occurrences id (images (fst outcome)) = 0
  /\ uploadError (fst outcome) = None
  /\ imagesChanges (snd outcome) = [images (fst outcome)].
Proof.
  cbv zeta. rewrite removeImage_images.
  split; [apply others_In|]. split; [apply others_count|].
  split; [apply others_gone|]. split; reflexivity.
Qed.

End RemovalMore.

Section IntakeComposition.
Import Upload IntakeSpec.

Variable env : Env.

(** X18.  After Clear All the whole capacity is back: from any state, a
    batch of at most 4 files, all acceptable and readable, offered after
    a clear is taken whole, and its files are then the files held, by the
    component and by the page. *)
Theorem X18_clear_then_submit (files : list File) (st : App.State) :
  length files <= 4 ->
  Forall acceptable files ->
  Forall (fun file => readAsDataURL env file <> None) files ->
  let st' := App.intake (App.Submit env files) (App.intake App.Clear st) in
  map img_file (images (App.upload st')) = files
  /\ map img_file (Page.images (App.page st')) = files.
Proof.
  intros Hlen Hacceptable Hread. cbv zeta.
  assert (Hvalid : Forall (fun file => validateFile file = None) files).
  { eapply Forall_impl; [|exact Hacceptable]. intros file. apply validateFile_None_iff. }
  destruct (accepted_all env files 0 Hvalid Hread) as [Hfiles Hnone].
  assert (Hclear : App.intake App.Clear st
                   = {| App.page := Page.setImages [] (App.page st);
                        App.upload := {| images := []; uploadError := None |} |})
    by reflexivity.
  rewrite Hclear. unfold App.intake. cbn [App.run_upload App.upload App.page].
  rewrite handleFiles_within_capacity
    by (cbn [images length]; unfold App.maxImages; lia).
  rewrite Hnone. cbn [images app].
  destruct (0 <? length (accepted env files 0)) eqn:Hsome;
    cbn [App.upload App.page images imagesChanges fold_left Page.setImages Page.images
         no_effects].
  - split; exact Hfiles.
  - apply Nat.ltb_ge in Hsome.
    assert (Hempty : files = []).
    { rewrite <- Hfiles. destruct (accepted env files 0); [reflexivity | simpl in Hsome; lia]. }
    rewrite Hempty. split; reflexivity.
Qed.

(** X19.  Adding one file and removing the image made of it brings the
    images back, provided no image held carried the identifier drawn for
    the new one; an image that did is removed with it. *)
Theorem X19_add_then_remove (file : File) (st : State) :
  acceptable file ->
  readAsDataURL env file <> None ->
  length (images st) < 4 ->
  let added := fst (handleFiles App.maxImages env [file] st) in
  let removed := fst (removeImage (random_id env 0) added) in
  length (images added) = length (images st) + 1
  /\ images removed = RemovalSpec.others (random_id env 0) (images st)
  /\ (RemovalSpec.occurrences (random_id env 0) (images st) = 0 ->
      images removed = images st).
Proof.
  intros Hacceptable Hread Hroom. cbv zeta.
  apply validateFile_None_iff in Hacceptable.
  rewrite handleFiles_within_capacity
    by (cbn [length]; unfold App.maxImages; lia).
  unfold failure_reasons, failure_reason. cbn [flat_map accepted].
  rewrite Hacceptable.
  destruct (readAsDataURL env file) as [base64Url|] eqn:E; [|contradiction].
  cbn [app length Nat.ltb Nat.leb fst images].
  rewrite removeImage_images.
  assert (Hothers : RemovalSpec.others (random_id env 0)
                      (images st ++ [{| img_id := random_id env 0; img_file := file;
                                        img_url := base64Url; img_name := file_name file |}])
                    = RemovalSpec.others (random_id env 0) (images st)).
  { unfold RemovalSpec.others. rewrite filter_app. cbn [filter img_id].
    rewrite jsstring_eqb_refl. apply app_nil_r. }
  cbn [images]. rewrite Hothers, length_app. cbn [length].
  split; [reflexivity|]. split; [reflexivity|].
  apply others_absent.
Qed.

End IntakeComposition.

Lemma X18_clear_then_submit_witness :
  let files := [IntakeSpec.png "a.png" 100; IntakeSpec.png "b.png" 100;
                IntakeSpec.png "c.png" 100; IntakeSpec.png "d.png" 100] in
  let full := App.intake (App.Submit IntakeSpec.reads_all files) App.initial in
  map img_file
      (Upload.images
         (App.upload (App.intake (App.Submit IntakeSpec.reads_all files)
                                 (App.intake App.Clear full))))
  = files.
Proof.
  cbv zeta.
  apply (X18_clear_then_submit IntakeSpec.reads_all
           [IntakeSpec.png "a.png" 100; IntakeSpec.png "b.png" 100;
            IntakeSpec.png "c.png" 100; IntakeSpec.png "d.png" 100]).
  - simpl. lia.
  - repeat constructor; apply validateFile_None_iff; vm_compute; reflexivity.
  - repeat constructor; discriminate.
Defined.

Lemma X19_add_then_remove_witness :
  let st := RemovalSpec.holding [RemovalSpec.image "a"; RemovalSpec.image "b"] in
  let added := fst (Upload.handleFiles App.maxImages IntakeSpec.reads_all
                      [IntakeSpec.png "c.png" 100] st) in
  Upload.images (fst (Upload.removeImage (lit "id0") added)) = Upload.images st.
Proof.
  cbv zeta.
  apply (X19_add_then_remove IntakeSpec.reads_all (IntakeSpec.png "c.png" 100)
           (RemovalSpec.holding [RemovalSpec.image "a"; RemovalSpec.image "b"])).
  - apply validateFile_None_iff. vm_compute. reflexivity.
  - discriminate.
  - simpl. lia.
  - vm_compute. reflexivity.
Defined.

(** * The interface as a whole *)

Section Frames.
Import Terms.

Lemma notify_frame (changes : list (list UploadedImage)) (p : Page.State) :
  Page.messages (UI.notify changes p) = Page.messages p
  /\ Page.query (UI.notify changes p) = Page.query p
  /\ Page.error (UI.notify changes p) = Page.error p
  /\ Page.isProcessing (UI.notify changes p) = Page.isProcessing p.
Proof.
  unfold UI.notify. revert p.
  induction changes as [|l changes IH]; intros p; simpl; [repeat split|].
  destruct (IH (Page.setImages l p)) as (H1 & H2 & H3 & H4).
  rewrite H1, H2, H3, H4. repeat split.
Qed.

Lemma last_cons_default {A} (x : A) (l : list A) (d d' : A) :
  last (x :: l) d = last (x :: l) d'.
Proof.
  revert x; induction l as [|y l IH]; intros x; [reflexivity|].
  change (last (y :: l) d = last (y :: l) d'). apply IH.
Qed.

Lemma notify_images (changes : list (list UploadedImage)) (p : Page.State) :
  Page.images (UI.notify changes p) = last changes (Page.images p).
Proof.
  unfold UI.notify. revert p.
  induction changes as [|l changes IH]; intros p; [reflexivity|].
  cbn [fold_left]. rewrite IH. cbn [Page.setImages Page.images].
  destruct changes as [|l' changes]; [reflexivity|].
  change (last (l :: l' :: changes) (Page.images p))
    with (last (l' :: changes) (Page.images p)).
  apply last_cons_default.
Qed.

(** [handleSendQuery] never sets the images, and only adds to the
    transcript. *)
Lemma send_frame (env : Page.Env) (p : Page.State) :
  Page.images (fst (Page.handleSendQuery env p)) = Page.images p
  /\ (exists added,
        Page.messages (fst (Page.handleSendQuery env p)) = Page.messages p ++ added)
  /\ (Page.isProcessing p = false ->
      Page.isProcessing (fst (Page.handleSendQuery env p)) = false)
  /\ length (Page.requests (snd (Page.handleSendQuery env p))) <= 1.
Proof.
  unfold Page.handleSendQuery.
  destruct (Page.validateQuery (Page.query p));
    [cbn; repeat split; auto; exists []; now rewrite app_nil_r|].
  destruct (Page.validateImages (Page.images p));
    [cbn; repeat split; auto; exists []; now rewrite app_nil_r|].
  destruct (Page.fetch env _); cbn;
    (split; [reflexivity|]); (split; [eexists; now rewrite <- app_assoc|]);
    split; auto.
Qed.

Lemma keypress_frame (env : Page.Env) (key : jsstring) (shiftKey : bool) (p : Page.State) :
  Page.images (fst (PageUI.handleKeyPress key shiftKey env p)) = Page.images p
  /\ (exists added,
        Page.messages (fst (PageUI.handleKeyPress key shiftKey env p))
        = Page.messages p ++ added
        /\ (jsstring_eqb key (lit "Enter") && negb shiftKey = false -> added = []))
  /\ (Page.isProcessing p = false ->
      Page.isProcessing (fst (PageUI.handleKeyPress key shiftKey env p)) = false)
  /\ (jsstring_eqb key (lit "Enter") && negb shiftKey = false ->
      Page.requests (snd (PageUI.handleKeyPress key shiftKey env p)) = []).
Proof.
  unfold PageUI.handleKeyPress.
  destruct (jsstring_eqb key (lit "Enter") && negb shiftKey).
  - destruct (send_frame env p) as (H1 & (added & H2) & H3 & _).
    split; [exact H1|]. split; [exists added; split; [exact H2 | discriminate]|].
    split; [exact H3 | discriminate].
  - cbn. repeat split; auto. exists []. split; [now rewrite app_nil_r | reflexivity].
Qed.

Lemma onQueryChange_frame (value : jsstring) (p : Page.State) :
  Page.images (PageUI.onQueryChange value p) = Page.images p
  /\ Page.messages (PageUI.onQueryChange value p) = Page.messages p
  /\ Page.isProcessing (PageUI.onQueryChange value p) = Page.isProcessing p
  /\ Page.query (PageUI.onQueryChange value p) = value.
Proof.
  unfold PageUI.onQueryChange. destruct (PageUI.truthy (Page.error p)); repeat split.
Qed.

Lemma handleDrag_component (type : jsstring) (u : UploadUI.State) :
  UploadUI.component (UploadUI.handleDrag type u) = UploadUI.component u.
Proof.
  unfold UploadUI.handleDrag.
  destruct (_ || _); [reflexivity|]. destruct (jsstring_eqb _ _); reflexivity.
Qed.

Lemma handleFiles_kept (env : Upload.Env) (files : list File)
      (c : Upload.State) (p : Page.State) :
  BoundsSpec.bounded (Upload.images c) -> Page.images p = Upload.images c ->
  kept p (Upload.handleFiles App.maxImages env files c).
Proof.
  intros [Hlen Hsmall] Hsame. unfold kept. rewrite notify_images.
  destruct (Z_le_gt_dec (Z.of_nat (length files))
              (App.maxImages - Z.of_nat (length (Upload.images c)))) as [Hfits|Hover].
  - rewrite (handleFiles_within_capacity env files c _ Hfits).
    destruct (IntakeSpec.failure_reasons env files) as [|first rest].
    + destruct (0 <? length (IntakeSpec.accepted env files 0)).
      * cbn. split; [|reflexivity]. split.
        -- rewrite length_app. pose proof (accepted_length env files 0).
           unfold App.maxImages in Hfits. lia.
        -- apply Forall_app. split; [assumption | apply accepted_small].
      * cbn. repeat split; assumption.
    + cbn. repeat split; assumption.
  - rewrite (handleFiles_over_capacity env files c _ Hover).
    cbn. repeat split; assumption.
Qed.

Lemma removeImage_kept (id : jsstring) (c : Upload.State) (p : Page.State) :
  BoundsSpec.bounded (Upload.images c) -> kept p (Upload.removeImage id c).
Proof.
  intros [Hlen Hsmall]. unfold kept. rewrite notify_images. cbn.
  split; [|reflexivity]. split.
  - etransitivity; [apply filter_length_le | exact Hlen].
  - now apply others_Forall.
Qed.

Lemma step_invariant (e : UI.Event) (st : UI.State) :
  ui_invariant st -> ui_invariant (fst (UI.step e st)).
Proof.
  intros (Hbounded & Hsame & Hidle). unfold ui_invariant.
  destruct e as [type | env files | env files | id | | value | env key shiftKey | env
                 | text written]; cbn [UI.step].
  - cbn [fst UI.page UI.uploader]. rewrite handleDrag_component. auto.
  - unfold UploadUI.handleDrop. cbn [UploadUI.setDragActive UploadUI.component].
    destruct (0 <? length files); [|cbn; auto].
    pose proof (handleFiles_kept env files _ (UI.page st) Hbounded Hsame) as [Hb Hs].
    destruct (Upload.handleFiles App.maxImages env files _) as [c effects].
    cbn in *. destruct (notify_frame (Upload.imagesChanges effects) (UI.page st))
      as (_ & _ & _ & Hp). rewrite Hp. auto.
  - destruct (UploadUI.inputDisabled _ _); [cbn; auto|].
    unfold UploadUI.handleFileInput. destruct files as [files|]; [|cbn; auto].
    pose proof (handleFiles_kept env files _ (UI.page st) Hbounded Hsame) as [Hb Hs].
    destruct (Upload.handleFiles App.maxImages env files _) as [c effects].
    cbn in *. destruct (notify_frame (Upload.imagesChanges effects) (UI.page st))
      as (_ & _ & _ & Hp). rewrite Hp. auto.
  - destruct (UploadUI.removeRendered _ _); [|cbn; auto].
    pose proof (removeImage_kept id _ (UI.page st) Hbounded) as [Hb Hs].
    unfold UI.after_component, UI.after_upload.
    cbn [fst snd UI.page UI.uploader UploadUI.component].
    destruct (notify_frame (Upload.imagesChanges
                              (snd (Upload.removeImage id (UploadUI.component (UI.uploader st)))))
                           (UI.page st)) as (_ & _ & _ & Hp).
    rewrite Hp. auto.
  - destruct (UploadUI.clearRendered _); [|cbn; auto].
    cbn. repeat split; auto; try lia; try constructor.
  - rewrite Hidle. cbn [fst UI.page UI.uploader].
    destruct (onQueryChange_frame value (UI.page st)) as (H1 & _ & H3 & _).
    rewrite H1, H3. auto.
  - rewrite Hidle. cbn [UI.after_page fst UI.page UI.uploader].
    destruct (keypress_frame env key shiftKey (UI.page st)) as (H1 & _ & H3 & _).
    rewrite H1. auto.
  - destruct (PageUI.sendDisabled _); [cbn; auto|].
    cbn [UI.after_page fst UI.page UI.uploader].
    destruct (send_frame env (UI.page st)) as (H1 & _ & H3 & _).
    rewrite H1. auto.
  - destruct (PageUI.copyRendered _ _); cbn; auto.
Qed.

Lemma run_invariant (events : list UI.Event) (st : UI.State) :
  ui_invariant st -> ui_invariant (UI.run events st).
Proof.
  revert st. unfold UI.run.
  induction events as [|e events IH]; intros st Hinv; simpl; [exact Hinv|].
  apply IH. now apply step_invariant.
Qed.

Lemma initial_ui_invariant : ui_invariant UI.initial.
Proof. repeat split; simpl; [lia | constructor]. Qed.

End Frames.

Section Interface.
Import Terms.


Lemma totalSize_from (l : list UploadedImage) (start : N) :
  fold_left (fun total img => (total + file_size (img_file img))%N) l start
  = (start + UploadUI.totalSize l)%N.
Proof.
  unfold UploadUI.totalSize. revert start.
  induction l as [|img l IH]; intros start; simpl; [lia|].
  rewrite IH, (IH (file_size (img_file img))). lia.
Qed.

Lemma totalSize_bounded (l : list UploadedImage) :
  Forall BoundsSpec.small l ->
  (UploadUI.totalSize l <= N.of_nat (length l) * (10 * 1024 * 1024))%N.
Proof.
  induction 1 as [|img l Hsmall _ IH].
  - vm_compute. discriminate.
  - unfold UploadUI.totalSize. cbn [fold_left length].
    rewrite totalSize_from. unfold BoundsSpec.small in Hsmall. lia.
Qed.

(** X21.  After any sequence of events of the interface, the total under
    the grid, the sum of the sizes of the images held, is at most 40 MiB. *)
Theorem X21_total_size_bounded (events : list UI.Event) :
  let st := UI.run events UI.initial in
  (UploadUI.totalSize (Upload.images (UploadUI.component (UI.uploader st)))
   <= 4 * (10 * 1024 * 1024))%N.
Proof.
  cbv zeta.
  destruct (run_invariant events UI.initial initial_ui_invariant)
    as ((Hlen & Hsmall) & _).
  pose proof (totalSize_bounded _ Hsmall) as Hsum. lia.
Qed.

Lemma step_messages (e : UI.Event) (st : UI.State) :
  exists added,
    Page.messages (UI.page (fst (UI.step e st))) = Page.messages (UI.page st) ++ added
    /\ (is_send e = false -> added = []).
Proof.
  assert (Hsame : forall st', Page.messages (UI.page st') = Page.messages (UI.page st) ->
            exists added, Page.messages (UI.page st') = Page.messages (UI.page st) ++ added
                          /\ (is_send e = false -> added = [])).
  { intros st' H. exists []. rewrite app_nil_r. auto. }
  destruct e as [type | env files | env files | id | | value | env key shiftKey | env
                 | text written]; cbn [UI.step is_send].
  - apply Hsame. reflexivity.
  - apply Hsame. cbn. apply notify_frame.
  - destruct (UploadUI.inputDisabled _ _); apply Hsame; [reflexivity|].
    cbn. apply notify_frame.
  - destruct (UploadUI.removeRendered _ _); apply Hsame; [|reflexivity].
    cbn [UI.after_component UI.after_upload fst UI.page]. apply notify_frame.
  - destruct (UploadUI.clearRendered _); apply Hsame; reflexivity.
  - destruct (Page.isProcessing _); apply Hsame; [reflexivity|].
    cbn. apply onQueryChange_frame.
  - destruct (Page.isProcessing _); [apply Hsame; reflexivity|].
    cbn [UI.after_page fst UI.page].
    destruct (keypress_frame env key shiftKey (UI.page st)) as (_ & (added & H & Hnone) & _).
    exists added. auto.
  - destruct (PageUI.sendDisabled _); [exists []; rewrite app_nil_r; split; [reflexivity | discriminate]|].
    cbn [UI.after_page fst UI.page].
    destruct (send_frame env (UI.page st)) as (_ & (added & H) & _).
    exists added. split; [exact H | discriminate].
  - destruct (PageUI.copyRendered _ _); apply Hsame; reflexivity.
Qed.

(** X22.  The transcript only grows: after any sequence of events, from
    any state, the entries that were there are still there, unchanged and
    in their order, before the new ones.  Only a click on Send and the
    Enter key without Shift add entries; every other event, the clearing
    of the images among them, leaves the transcript as it was. *)
Theorem X22_transcript_append_only (events : list UI.Event) (st : UI.State) :
  exists added,
    Page.messages (UI.page (UI.run events st)) = Page.messages (UI.page st) ++ added
    /\ (forallb (fun e => negb (is_send e)) events = true -> added = []).
Proof.
  revert st. unfold UI.run.
  induction events as [|e events IH]; intros st; cbn [fold_left forallb].
  - exists []. rewrite app_nil_r. auto.
  - destruct (IH (fst (UI.step e st))) as (later & Hlater & Hnone).
    destruct (step_messages e st) as (first & Hfirst & Hquiet).
    exists (first ++ later). rewrite Hlater, Hfirst, app_assoc. split; [reflexivity|].
    intros Hall. apply andb_prop in Hall as [He Hrest].
    apply negb_true_iff in He. now rewrite (Hquiet He), (Hnone Hrest).
Qed.

(** X23.  The two halves of the interface keep to themselves.  An event
    of the upload component changes nothing of the page but its images,
    and sends no request; any other event leaves the component, its
    images and its error, as they were, and the images of the page too. *)
Theorem X23_intake_and_chat_frames (e : UI.Event) (st : UI.State) :
  let outcome := UI.step e st in
  (is_intake e = true ->
     Page.messages (UI.page (fst outcome)) = Page.messages (UI.page st)
     /\ Page.query (UI.page (fst outcome)) = Page.query (UI.page st)
     /\ Page.error (UI.page (fst outcome)) = Page.error (UI.page st)
     /\ UI.requests (snd outcome) = [])
  /\ (is_intake e = false ->
      UI.uploader (fst outcome) = UI.uploader st
      /\ Page.images (UI.page (fst outcome)) = Page.images (UI.page st)).
Proof.
  cbv zeta.
  destruct e as [type | env files | env files | id | | value | env key shiftKey | env
                 | text written]; cbn [UI.step is_intake];
    (split; [intros Hkind; try discriminate | intros Hkind; try discriminate]).
  - repeat split.
  - cbn. destruct (notify_frame
                     (Upload.imagesChanges
                        (snd (UploadUI.handleDrop App.maxImages env files (UI.uploader st))))
                     (UI.page st)) as (H1 & H2 & H3 & _). auto.
  - destruct (UploadUI.inputDisabled _ _); [repeat split|].
    cbn. destruct (notify_frame
                     (Upload.imagesChanges
                        (snd (UploadUI.handleFileInput App.maxImages env files (UI.uploader st))))
                     (UI.page st)) as (H1 & H2 & H3 & _). auto.
  - destruct (UploadUI.removeRendered _ _); [|repeat split].
    cbn [UI.after_component UI.after_upload fst snd UI.page UI.requests].
    destruct (notify_frame
                (Upload.imagesChanges
                   (snd (Upload.removeImage id (UploadUI.component (UI.uploader st)))))
                (UI.page st)) as (H1 & H2 & H3 & _). auto.
  - destruct (UploadUI.clearRendered _); repeat split.
  - destruct (Page.isProcessing _); [repeat split|].
    cbn. split; [reflexivity | apply onQueryChange_frame].
  - destruct (Page.isProcessing _); [repeat split|].
    cbn [UI.after_page fst UI.page UI.uploader].
    split; [reflexivity | apply keypress_frame].
  - destruct (PageUI.sendDisabled _); [repeat split|].
    cbn [UI.after_page fst UI.page UI.uploader].
    split; [reflexivity | apply send_frame].
  - destruct (PageUI.copyRendered _ _); repeat split.
Qed.

End Interface.

Lemma X22_transcript_append_only_witness :
  let st := {| UI.page := QuerySpec.typed (lit "What colors?");
               UI.uploader := {| UploadUI.component := App.upload SendSpec.ready;
                                 UploadUI.dragActive := false |} |} in
  let sent := fst (UI.step (UI.SendClick QuerySpec.answering) st) in
  exists added,
    Page.messages
      (UI.page (UI.run [UI.ClearClick; UI.KeyPress QuerySpec.answering (lit "Enter") true;
                        UI.Drag (lit "dragover")] sent))
    = Page.messages (UI.page sent) ++ added
    /\ added = [].
Proof.
  cbv zeta.
  destruct (X22_transcript_append_only
              [UI.ClearClick; UI.KeyPress QuerySpec.answering (lit "Enter") true;
               UI.Drag (lit "dragover")]
              (fst (UI.step (UI.SendClick QuerySpec.answering)
                      {| UI.page := QuerySpec.typed (lit "What colors?");
                         UI.uploader := {| UploadUI.component := App.upload SendSpec.ready;
                                           UploadUI.dragActive := false |} |})))
    as (added & Hadded & Hnone).
  exists added. split; [exact Hadded | apply Hnone; reflexivity].
Defined.

Lemma X23_intake_and_chat_frames_witness :
  let st := {| UI.page := QuerySpec.typed (lit "What colors?");
               UI.uploader := {| UploadUI.component := App.upload SendSpec.ready;
                                 UploadUI.dragActive := false |} |} in
  Page.query (UI.page (fst (UI.step UI.ClearClick st))) = lit "What colors?"
  /\ UI.uploader (fst (UI.step (UI.SendClick QuerySpec.answering) st)) = UI.uploader st.
Proof.
  cbv zeta. split.
  - apply (proj1 (X23_intake_and_chat_frames UI.ClearClick
             {| UI.page := QuerySpec.typed (lit "What colors?");
                UI.uploader := {| UploadUI.component := App.upload SendSpec.ready;
                                  UploadUI.dragActive := false |} |})).
    reflexivity.
  - apply (proj2 (X23_intake_and_chat_frames (UI.SendClick QuerySpec.answering)
             {| UI.page := QuerySpec.typed (lit "What colors?");
                UI.uploader := {| UploadUI.component := App.upload SendSpec.ready;
                                  UploadUI.dragActive := false |} |})).
    reflexivity.
Defined.

Section Compositions.
Import Terms.

(** Every inline error that [handleSendQuery] leaves is a message with
    text in it. *)
Lemma send_error_truthy (env : Page.Env) (p : Page.State) :
  Page.error (fst (Page.handleSendQuery env p)) = None
  \/ PageUI.truthy (Page.error (fst (Page.handleSendQuery env p))) = true.
Proof.
  unfold Page.handleSendQuery, Page.validateQuery.
  destruct (length (trim (Page.query p)) =? 0); [right; reflexivity|].
  destruct (length (Page.query p) <? 3); [right; reflexivity|].
  destruct (500 <? length (Page.query p)); [right; reflexivity|].
  rewrite validateImages_cases.
  destruct (length (Page.images p) =? 0); [right; reflexivity|].
  destruct (4 <? length (Page.images p)); [right; reflexivity|].
  destruct (0 <? length (filter oversized (Page.images p))); [right; reflexivity|].
  left. destruct (Page.fetch env _); reflexivity.
Qed.

(** X24.  Whatever error a send has left under the input, the next
    change of the input removes it; the change sets the query and touches
    neither the transcript nor the images. *)
Theorem X24_typing_clears_error (env : Page.Env) (p : Page.State) (value : jsstring) :
  let shown := fst (Page.handleSendQuery env p) in
  Page.error (PageUI.onQueryChange value shown) = None
  /\ Page.query (PageUI.onQueryChange value shown) = value
  /\ Page.messages (PageUI.onQueryChange value shown) = Page.messages shown
  /\ Page.images (PageUI.onQueryChange value shown) = Page.images shown.
Proof.
  cbv zeta. unfold PageUI.onQueryChange.
  destruct (send_error_truthy env p) as [Hnone | Hshown].
  - rewrite Hnone. cbn. repeat split. exact Hnone.
  - rewrite Hshown. repeat split.
Qed.

Lemma validateQuery_nonempty (q : jsstring) : Page.validateQuery q = None -> q <> [].
Proof. intros H ->. discriminate. Qed.

(** X25.  The endpoint never refuses what the page sends: when both
    validations of the page pass, the body of its request gets status 200
    and a text from [POST], whatever the provider does, after one call of
    the provider that carries the data URLs of the page's images in
    order. *)
Theorem X25_page_request_accepted
        (generateText : Endpoint.GenerateTextCall -> Settled jsstring) (p : Page.State) :
  Page.validateQuery (Page.query p) = None ->
  Page.validateImages (Page.images p) = None ->
  let request := Page.analysis_request (Page.query p) (Page.images p) in
  exists text,
    Endpoint.POST generateText (as_body request)
    = ({| Endpoint.status := 200; Endpoint.body := Endpoint.ResponseText text |},
       [Endpoint.provider_call (Page.query p) (Page.req_images request)])
    /\ Endpoint.call_images (Endpoint.provider_call (Page.query p) (Page.req_images request))
       = map img_url (Page.images p).
Proof.
  intros Hquery Himages. cbv zeta.
  apply validateQuery_nonempty in Hquery.
  apply validateImages_passes in Himages as [[Hsome _] _].
  assert (Hrefs : Page.req_images (Page.analysis_request (Page.query p) (Page.images p)) <> []).
  { cbn. destruct (Page.images p); [simpl in Hsome; lia | discriminate]. }
  destruct (POST_well_formed generateText (Page.query p) _ Hquery Hrefs) as (text & Hpost & _).
  exists text. split; [exact Hpost|].
  cbn. now rewrite map_map.
Qed.

(** X26.  After any sequence of events of the interface, the images of
    the page pass [validateImages] unless there are none: the errors for
    too many and for oversized images cannot show.  So a click on the
    enabled Send button with a query of 3 to 500 characters always sends
    the request. *)
Theorem X26_reachable_send (events : list UI.Event) (env : Page.Env) :
  let st := UI.run events UI.initial in
  (Page.images (UI.page st) = [] ->
     Page.validateImages (Page.images (UI.page st)) = Some NoImages)
  /\ (Page.images (UI.page st) <> [] ->
      Page.validateImages (Page.images (UI.page st)) = None)
  /\ (PageUI.sendDisabled (UI.page st) = false ->
      3 <= length (Page.query (UI.page st)) <= 500 ->
      UI.requests (snd (UI.step (UI.SendClick env) st))
      = [Page.analysis_request (Page.query (UI.page st)) (Page.images (UI.page st))]).
Proof.
  cbv zeta.
  destruct (run_invariant events UI.initial initial_ui_invariant)
    as ((Hlen & Hsmall) & Hsame & Hidle).
  set (st := UI.run events UI.initial) in *.
  assert (Hpass : Page.images (UI.page st) <> [] ->
                  Page.validateImages (Page.images (UI.page st)) = None).
  { intros Hsome. apply validateImages_passes. rewrite Hsame.
    split; [|exact Hsmall]. split; [|exact Hlen].
    rewrite <- Hsame. destruct (Page.images (UI.page st)); [contradiction | simpl; lia]. }
  split; [intros ->; reflexivity|]. split; [exact Hpass|].
  intros Henabled [Hlo Hhi]. cbn [UI.step]. rewrite Henabled.
  unfold PageUI.sendDisabled in Henabled.
  apply orb_false_iff in Henabled as [Henabled _].
  apply orb_false_iff in Henabled as [Hblank Hnone].
  assert (Hquery : Page.validateQuery (Page.query (UI.page st)) = None).
  { unfold Page.validateQuery. rewrite Hblank.
    assert (H3 : (length (Page.query (UI.page st)) <? 3) = false) by (apply Nat.ltb_ge; lia).
    assert (H500 : (500 <? length (Page.query (UI.page st))) = false)
      by (apply Nat.ltb_ge; lia).
    now rewrite H3, H500. }
  assert (Himages : Page.validateImages (Page.images (UI.page st)) = None).
  { apply Hpass. intros Hnil. rewrite Hnil in Hnone. discriminate. }
  cbn [UI.after_page snd UI.requests]. unfold Page.handleSendQuery.
  rewrite Hquery, Himages. destruct (Page.fetch env _); reflexivity.
Qed.

End Compositions.

Lemma X25_page_request_accepted_witness :
  exists text,
    Endpoint.POST EndpointSpec.failing_provider
      (Terms.as_body (Page.analysis_request (lit "What colors?") [QuerySpec.one_image]))
    = ({| Endpoint.status := 200; Endpoint.body := Endpoint.ResponseText text |},
       [Endpoint.provider_call (lit "What colors?")
          (Page.req_images (Page.analysis_request (lit "What colors?") [QuerySpec.one_image]))]).
Proof.
  destruct (X25_page_request_accepted EndpointSpec.failing_provider
              (QuerySpec.typed (lit "What colors?")))
    as (text & Hpost & _); [vm_compute; reflexivity | vm_compute; reflexivity |].
  exists text. exact Hpost.
Defined.

Lemma X26_reachable_send_witness :
  let events := [UI.Drop IntakeSpec.reads_all [IntakeSpec.png "a.png" 100];
                 UI.TypeQuery (lit "What colors?")] in
  length (UI.requests (snd (UI.step (UI.SendClick QuerySpec.answering)
                                    (UI.run events UI.initial)))) = 1.
Proof.
  cbv zeta.
  rewrite (proj2 (proj2 (X26_reachable_send
             [UI.Drop IntakeSpec.reads_all [IntakeSpec.png "a.png" 100];
              UI.TypeQuery (lit "What colors?")] QuerySpec.answering))).
  - reflexivity.
  - vm_compute. reflexivity.
  - vm_compute. lia.
Defined.
